(** * GLOBAL AI chat client: the transcript controller, shallowly embedded

    The development follows [components/Chat.tsx] (the [Chat] component:
    [saveToCloud], [loadFromCloud], [handleNewChat], [handleDeleteMessage],
    [handleSubmit] and the two ways the form reaches it,
    [handleVoiceInput], the attachment's label), [services/ai.ts]
    ([generateChatResponse]),
    [App.tsx] and [components/Auth.tsx] (the session gate).

    [handleSubmit] is an [async] function.  Between two [await]s it runs
    without interruption; at an [await] it is suspended and any other
    handler may run.  The local variables it captured stay what they
    were ([messages], [updatedMessages2], [aiMessageId], [text]): they are
    kept by the suspended [Task], and a resumed task writes the lists it
    captured, not the transcript as it is by then.  External services are
    not modelled: what they answer arrives as the [Settlement] of the
    awaited promise. *)

From Stdlib Require Import String Ascii List Arith NArith Bool Lia DecimalString DecimalN.
Import ListNotations.
Local Open Scope string_scope.

(** ** JavaScript strings

    A character is a code unit below 256.  The operations are the ones
    [Chat.tsx] calls on strings. *)
Module Js.

Definition LF : string := String (ascii_of_nat 10) "".

(** White space of [String.prototype.trim] in this range: TAB, LF, VT,
    FF, CR, SP and NBSP. *)
Definition isWhiteSpace (c : ascii) : bool :=
  let n := N_of_ascii c in
  (((9 <=? n) && (n <=? 13)) || (n =? 32) || (n =? 160))%N.

Fixpoint trimStart (s : string) : string :=
  match s with
  | String c s' => if isWhiteSpace c then trimStart s' else s
  | EmptyString => EmptyString
  end.

Fixpoint trimEnd (s : string) : string :=
  match s with
  | String c s' =>
      match trimEnd s' with
      | EmptyString => if isWhiteSpace c then EmptyString else String c EmptyString
      | r => String c r
      end
  | EmptyString => EmptyString
  end.

Definition trim (s : string) : string := trimEnd (trimStart s).

(** A string used as a condition: only the empty string is falsy. *)
Definition truthy (s : string) : bool := negb (s =? "").

Definition lowerChar (c : ascii) : ascii :=
  let n := N_of_ascii c in
  if (((65 <=? n) && (n <=? 90))
      || ((192 <=? n) && (n <=? 222) && negb (n =? 215)))%N
  then ascii_of_N (n + 32) else c.

Fixpoint toLowerCase (s : string) : string :=
  match s with
  | String c s' => String (lowerChar c) (toLowerCase s')
  | EmptyString => EmptyString
  end.

(** [s.split(sep)] for a one-character separator: never empty. *)
Fixpoint split (sep : ascii) (s : string) : list string :=
  match s with
  | EmptyString => [EmptyString]
  | String c s' =>
      if Ascii.eqb c sep then EmptyString :: split sep s'
      else match split sep s' with
           | piece :: rest => String c piece :: rest
           | [] => [String c EmptyString]
           end
  end.

(** [arr.pop()] read for its value; [undefined] on an empty array. *)
Definition pop (arr : list string) : option string :=
  match arr with
  | [] => None
  | _ => Some (last arr "")
  end.

Definition startsWith (s p : string) : bool := String.prefix p s.

(** [n.toString()] of a non-negative integer. *)
Definition toString (n : N) : string :=
  NilEmpty.string_of_uint (N.to_uint n).

End Js.

(** ** Data model *)

Inductive Role : Set := user | ai.

(** The [file] field of a message. *)
Record Attachment : Set := { name : string; type : string; url : string }.

(** [interface Message]; [file] and [isThinking] are optional fields. *)
Record Message : Set := {
  id : string;
  role : Role;
  content : string;
  file : option Attachment;
  isThinking : option bool
}.

(** [msg.isThinking] used as a condition. *)
Definition pending (m : Message) : bool :=
  match isThinking m with
  | Some true => true
  | _ => false
  end.

Definition pendingCount (msgs : list Message) : nat :=
  length (filter pending msgs).

(** ['search' | 'claude'] *)
Inductive Mode : Set := search | claude.

(** The browser's [File], as far as the component reads it; [blob_url] is
    what [URL.createObjectURL] hands out for it. *)
Record File : Set := {
  file_name : string;
  file_type : string;
  blob_url : string
}.

(** [{ data: string; mimeType: string }]; [data] is [base64Url.split(',')[1]],
    which is [undefined] when the URL has no comma. *)
Record InlineData : Set := { data : option string; mimeType : string }.

(** ** [services/ai.ts] *)
Module Ai.

Inductive Part : Set :=
| inlineData (d : InlineData)
| text (t : string).

Record Config : Set := { thinkingLevelHigh : bool; googleSearch : bool }.

Record GenerateContent : Set := {
  model : string;
  parts : list Part;
  config : Config
}.

(** The request [generateChatResponse] hands to [ai.models.generateContent]. *)
Definition generateChatResponse
    (prompt : string) (file : option InlineData)
    (useThinking useFast : bool) : GenerateContent :=
  let '(model, config) :=
    match file with
    | Some _ => ("gemini-3.1-pro-preview", {| thinkingLevelHigh := false; googleSearch := false |})
    | None =>
        if useThinking
        then ("gemini-3.1-pro-preview", {| thinkingLevelHigh := true; googleSearch := false |})
        else if useFast
        then ("gemini-2.5-flash-lite-latest", {| thinkingLevelHigh := false; googleSearch := false |})
        else ("gemini-3-flash-preview", {| thinkingLevelHigh := false; googleSearch := true |})
    end in
  let parts :=
    match file with
    | Some f => [inlineData f]
    | None => []
    end in
  {| model := model; parts := (parts ++ [text prompt])%list; config := config |}.

End Ai.

(** ** Calls to the response strategies *)

(** The options object of [puter.ai.chat]. *)
Record ChatOptions : Set := {
  model : string;
  stream : bool;
  web_search : bool
}.

Inductive StrategyCall : Set :=
| puterAiChat (prompt : string) (opts : ChatOptions)
| geminiGenerate (req : Ai.GenerateContent).

(** The binary attachment a call carries to the model. *)
Definition transmitted (c : StrategyCall) : option InlineData :=
  match c with
  | puterAiChat _ _ => None
  | geminiGenerate req =>
      match Ai.parts req with
      | Ai.inlineData d :: _ => Some d
      | _ => None
      end
  end.

Definition promptOf (c : StrategyCall) : string :=
  match c with
  | puterAiChat p _ => p
  | geminiGenerate req =>
      match last (Ai.parts req) (Ai.text "") with
      | Ai.text p => p
      | Ai.inlineData _ => ""
      end
  end.

(** The dispatch of [handleSubmit] on [mode].  The source has a third,
    final [else] that calls [generateChatResponse(prompt, fileDataForApi,
    false, false)]; [mode] has the two values below, so no value of it
    reaches that branch. *)
Definition strategyCall
    (mode : Mode) (prompt : string) (fileDataForApi : option InlineData)
    : StrategyCall :=
  match mode with
  | claude =>
      puterAiChat prompt
        {| model := "claude-sonnet-4.5"; stream := true; web_search := false |}
  | search =>
      puterAiChat prompt
        {| model := "openai/gpt-5.2-chat"; stream := true; web_search := true |}
  end.

(** The branch no [mode] selects. *)
Definition unreachedElse
    (prompt : string) (fileDataForApi : option InlineData) : StrategyCall :=
  geminiGenerate (Ai.generateChatResponse prompt fileDataForApi false false).

(** ** The component's state *)

(** The promise an ingesting [handleSubmit] is suspended on. *)
Inductive Awaited : Set :=
| fileToBase64          (* [await fileToBase64(selectedFile)] *)
| extractTextFromDocx   (* [await extractTextFromDocx(selectedFile)] *)
| fileText.             (* [await selectedFile.text()] *)

(** A call of [handleSubmit], with the variables its closure holds. *)
Inductive Task : Set :=
| Ingesting (messages0 : list Message) (userMessage : Message)
            (selected : File) (what : Awaited) (mode0 : Mode)
| AwaitingChat (updatedMessages2 : list Message) (aiMessageId : string)
| Streaming (updatedMessages2 : list Message) (aiMessageId : string)
            (text : string)
| Returned.

Record State : Set := {
  (* [useState] cells *)
  messages : list Message;
  input : string;
  selectedFile : option File;
  isLoading : bool;
  mode : Mode;
  (* the environment: the [userEmail] prop and whether [window.puter] is set *)
  userEmail : string;
  puter : bool;
  (* effects: the arguments of each [saveToCloud] call, the
     [puter.fs.write] calls issued, the strategy calls issued *)
  saved : list (list Message);
  written : list (string * list Message);
  chats : list StrategyCall;
  (* the calls of [handleSubmit] so far *)
  tasks : list Task
}.

Definition set_messages (v : list Message) (st : State) : State :=
  {| messages := v; input := input st; selectedFile := selectedFile st;
     isLoading := isLoading st; mode := mode st; userEmail := userEmail st;
     puter := puter st; saved := saved st; written := written st;
     chats := chats st; tasks := tasks st |}.

Definition set_input (v : string) (st : State) : State :=
  {| messages := messages st; input := v; selectedFile := selectedFile st;
     isLoading := isLoading st; mode := mode st; userEmail := userEmail st;
     puter := puter st; saved := saved st; written := written st;
     chats := chats st; tasks := tasks st |}.

Definition set_selectedFile (v : option File) (st : State) : State :=
  {| messages := messages st; input := input st; selectedFile := v;
     isLoading := isLoading st; mode := mode st; userEmail := userEmail st;
     puter := puter st; saved := saved st; written := written st;
     chats := chats st; tasks := tasks st |}.

Definition set_isLoading (v : bool) (st : State) : State :=
  {| messages := messages st; input := input st; selectedFile := selectedFile st;
     isLoading := v; mode := mode st; userEmail := userEmail st;
     puter := puter st; saved := saved st; written := written st;
     chats := chats st; tasks := tasks st |}.

Definition set_mode (v : Mode) (st : State) : State :=
  {| messages := messages st; input := input st; selectedFile := selectedFile st;
     isLoading := isLoading st; mode := v; userEmail := userEmail st;
     puter := puter st; saved := saved st; written := written st;
     chats := chats st; tasks := tasks st |}.

Definition set_saved (v : list (list Message)) (st : State) : State :=
  {| messages := messages st; input := input st; selectedFile := selectedFile st;
     isLoading := isLoading st; mode := mode st; userEmail := userEmail st;
     puter := puter st; saved := v; written := written st;
     chats := chats st; tasks := tasks st |}.

Definition set_written (v : list (string * list Message)) (st : State) : State :=
  {| messages := messages st; input := input st; selectedFile := selectedFile st;
     isLoading := isLoading st; mode := mode st; userEmail := userEmail st;
     puter := puter st; saved := saved st; written := v;
     chats := chats st; tasks := tasks st |}.

Definition set_chats (v : list StrategyCall) (st : State) : State :=
  {| messages := messages st; input := input st; selectedFile := selectedFile st;
     isLoading := isLoading st; mode := mode st; userEmail := userEmail st;
     puter := puter st; saved := saved st; written := written st;
     chats := v; tasks := tasks st |}.

Definition set_tasks (v : list Task) (st : State) : State :=
  {| messages := messages st; input := input st; selectedFile := selectedFile st;
     isLoading := isLoading st; mode := mode st; userEmail := userEmail st;
     puter := puter st; saved := saved st; written := written st;
     chats := chats st; tasks := v |}.

(** Task [k] becomes [t]; [k = length ts] adds a task. *)
Definition put (k : nat) (t : Task) (ts : list Task) : list Task :=
  (firstn k ts ++ t :: skipn (S k) ts)%list.

Definition set_task (k : nat) (t : Task) (st : State) : State :=
  set_tasks (put k t (tasks st)) st.

(** The component as mounted for [email], before anything is loaded. *)
Definition mount (email : string) (puterLoaded : bool) : State :=
  {| messages := []; input := ""; selectedFile := None; isLoading := false;
     mode := search; userEmail := email; puter := puterLoaded;
     saved := []; written := []; chats := []; tasks := [] |}.

(** ** The handlers *)

Definition storageKey (email : string) : string :=
  "global_ai_chats_" ++ email ++ ".json".

(** [saveToCloud(msgs)]: the write is issued only when [window.puter] is
    set; a write that fails is logged and changes nothing here. *)
Definition saveToCloud (msgs : list Message) (st : State) : State :=
  let st := set_saved (saved st ++ [msgs])%list st in
  if puter st
  then set_written (written st ++ [(storageKey (userEmail st), msgs)])%list st
  else st.

Definition handleNewChat (st : State) : State :=
  let st := set_messages [] st in
  let st := saveToCloud [] st in
  let st := set_input "" st in
  set_selectedFile None st.

Definition handleDeleteMessage (id0 : string) (st : State) : State :=
  let updated := filter (fun m => negb (id m =? id0)) (messages st) in
  let st := set_messages updated st in
  saveToCloud updated st.

Definition apology : string :=
  "Sorry, I encountered an error processing your request.".

(** [{ ...msg, content: text, isThinking: false }] for the message of
    that id, the others as they are. *)
Definition withContent (aiMessageId text : string) (msg : Message) : Message :=
  if id msg =? aiMessageId
  then {| id := id msg; role := role msg; content := text;
          file := file msg; isThinking := Some false |}
  else msg.

Definition placeholder (aiMessageId : string) : Message :=
  {| id := aiMessageId; role := ai; content := "";
     file := None; isThinking := Some true |}.

(** The prompt built at the head of the [try] block. *)
Definition composePrompt (content0 extractedText : string) : string :=
  if Js.truthy extractedText
  then "Document Content:" ++ Js.LF ++ extractedText ++ Js.LF ++ Js.LF
       ++ "User Query: "
       ++ (if Js.truthy content0 then content0 else "Analyze this document.")
  else content0.

(** The last update of a call, after the loop or in [catch], and the
    [finally] block. *)
Definition finish (k : nat) (updatedMessages2 : list Message)
    (aiMessageId text : string) (st : State) : State :=
  let finalUpdated := map (withContent aiMessageId text) updatedMessages2 in
  let st := set_messages finalUpdated st in
  let st := saveToCloud finalUpdated st in
  let st := set_isLoading false st in
  set_task k Returned st.

(** [handleSubmit] from [const updatedMessages1 = ...] to the [await] of
    [puter.ai.chat]: one uninterrupted run.  [t2] is the clock read for
    [aiMessageId]. *)
Definition afterIngestion (k : nat) (messages0 : list Message)
    (userMessage : Message) (fileDataForApi : option InlineData)
    (extractedText : string) (mode0 : Mode) (t2 : N) (st : State) : State :=
  let updatedMessages1 := (messages0 ++ [userMessage])%list in
  let st := set_messages updatedMessages1 st in
  let st := saveToCloud updatedMessages1 st in
  let st := set_input "" st in
  let st := set_selectedFile None st in
  let st := set_isLoading true st in
  let aiMessageId := Js.toString (t2 + 1) in
  let updatedMessages2 := (updatedMessages1 ++ [placeholder aiMessageId])%list in
  let st := set_messages updatedMessages2 st in
  let prompt := composePrompt (content userMessage) extractedText in
  if puter st
  then
    let st := set_chats (chats st ++ [strategyCall mode0 prompt fileDataForApi])%list st in
    set_task k (AwaitingChat updatedMessages2 aiMessageId) st
  else
    (* [throw new Error('Puter.js is not loaded.')] *)
    finish k updatedMessages2 aiMessageId apology st.

Definition extension (f : File) : option string :=
  option_map Js.toLowerCase (Js.pop (Js.split "." (file_name f))).

Definition extensionIs (f : File) (e : string) : bool :=
  match extension f with
  | Some x => x =? e
  | None => false
  end.

(** [userMessage.file = { name, type, url: URL.createObjectURL(selectedFile) }] *)
Definition withFile (selected : File) (m : Message) : Message :=
  {| id := id m; role := role m; content := content m;
     file := Some {| name := file_name selected; type := file_type selected;
                     url := blob_url selected |};
     isThinking := isThinking m |}.

(** [{ id: Date.now().toString(), role: 'user', content: input }] *)
Definition newUserMessage (t1 : N) (input0 : string) : Message :=
  {| id := Js.toString t1; role := user; content := input0;
     file := None; isThinking := None |}.

(** [!input.trim() && !selectedFile] *)
Definition nothingToSend (st : State) : bool :=
  negb (Js.truthy (Js.trim (input st)))
  && match selectedFile st with Some _ => false | None => true end.

(** [handleSubmit(e)], up to its first [await].  [t1] is the clock read
    for the user message's id; [t2] the one for [aiMessageId], read in
    this run when nothing is awaited before. *)
Definition handleSubmit (t1 t2 : N) (st : State) : State :=
  if nothingToSend st then st
  else
    let k := length (tasks st) in
    let userMessage := newUserMessage t1 (input st) in
    match selectedFile st with
    | None =>
        afterIngestion k (messages st) userMessage None "" (mode st) t2 st
    | Some f =>
        let userMessage := withFile f userMessage in
        if extensionIs f "pdf" || Js.startsWith (file_type f) "image/"
        then set_task k (Ingesting (messages st) userMessage f fileToBase64 (mode st)) st
        else if extensionIs f "docx"
        then set_task k (Ingesting (messages st) userMessage f extractTextFromDocx (mode st)) st
        else if extensionIs f "txt"
        then set_task k (Ingesting (messages st) userMessage f fileText (mode st)) st
        else afterIngestion k (messages st) userMessage None "" (mode st) t2 st
    end.

(** What an awaited promise of a suspended [handleSubmit] settles to. *)
Inductive Settlement : Set :=
| ingestResolves (value : string) (t2 : N)  (* the file was read; the clock then *)
| ingestRejects                             (* the read or the extraction failed *)
| chatResolves                              (* [puter.ai.chat] returned its stream *)
| streamYields (part : option string)       (* one [part]; [None]: no [part.text] *)
| streamEnds                                (* the stream is exhausted *)
| strategyFails.                            (* the call or the stream throws *)

(** [part?.text || ''] *)
Definition partText (part : option string) : string :=
  match part with
  | Some t => t
  | None => ""
  end.

(** [userMessage.file.url = base64Url] *)
Definition withUrl (base64Url : string) (m : Message) : Message :=
  {| id := id m; role := role m; content := content m;
     file := option_map
               (fun a => {| name := name a; type := type a; url := base64Url |})
               (file m);
     isThinking := isThinking m |}.

(** The attachment dispatch after its [await]: the user message, the
    inline payload and the extracted text. *)
Definition ingested (what : Awaited) (selected : File) (value : string)
    (userMessage : Message) : Message * option InlineData * string :=
  match what with
  | fileToBase64 =>
      let base64Url := value in
      let base64Data := nth_error (Js.split "," base64Url) 1 in
      (withUrl base64Url userMessage,
       Some {| data := base64Data; mimeType := file_type selected |},
       "")
  | extractTextFromDocx => (userMessage, None, value)
  | fileText => (userMessage, None, value)
  end.

(** Task [k] goes on from its [await] with settlement [s].  A settlement
    the task is not waiting for does not occur: the state stays. *)
Definition resume (k : nat) (s : Settlement) (st : State) : State :=
  match nth_error (tasks st) k, s with
  | Some (Ingesting messages0 userMessage f what mode0), ingestResolves v t2 =>
      let '(userMessage, fileDataForApi, extractedText) :=
        ingested what f v userMessage in
      afterIngestion k messages0 userMessage fileDataForApi extractedText
        mode0 t2 st
  | Some (Ingesting _ _ _ _ _), ingestRejects =>
      (* [handleSubmit] rejects before its [try] block *)
      set_task k Returned st
  | Some (AwaitingChat updatedMessages2 aiMessageId), chatResolves =>
      set_task k (Streaming updatedMessages2 aiMessageId "") st
  | Some (AwaitingChat updatedMessages2 aiMessageId), strategyFails =>
      finish k updatedMessages2 aiMessageId apology st
  | Some (Streaming updatedMessages2 aiMessageId text), streamYields part =>
      let text := text ++ partText part in
      let updated := map (withContent aiMessageId text) updatedMessages2 in
      set_task k (Streaming updatedMessages2 aiMessageId text)
        (set_messages updated st)
  | Some (Streaming updatedMessages2 aiMessageId text), streamEnds =>
      finish k updatedMessages2 aiMessageId text st
  | Some (Streaming updatedMessages2 aiMessageId _), strategyFails =>
      finish k updatedMessages2 aiMessageId apology st
  | _, _ => st
  end.

(** [disabled] of the send button. *)
Definition sendDisabled (st : State) : bool :=
  nothingToSend st || isLoading st.

(** ** The component as a transition system *)

Inductive Event : Set :=
| typed (s : string)            (* the textarea's [onChange] *)
| fileSelected (f : File)       (* [handleFileSelect] *)
| fileRemoved                   (* the chip's X button *)
| modeSet (m : Mode)            (* the mode toggle *)
| sendClicked (t1 t2 : N)       (* the send button; submits the form unless disabled *)
| enterPressed (t1 t2 : N)      (* Enter without Shift in the textarea *)
| deleteClicked (id0 : string)  (* a message's Delete button *)
| newChatClicked                (* the New Chat button *)
| settled (k : nat) (s : Settlement)
| cloudLoaded (parsed : option (list Message)).  (* [loadFromCloud] has ended *)

(** [loadFromCloud], started by the effect on [userEmail], from the end
    of its reads on.  [parsed] is the array read from the user's file;
    [None] when the read fails, the text is not JSON or the value is not
    an array.  Without [window.puter] nothing is read. *)
Definition loadFromCloud (parsed : option (list Message)) (st : State) : State :=
  if puter st
  then match parsed with
       | Some msgs => set_messages msgs st
       | None => st
       end
  else st.

Definition step (st : State) (e : Event) : State :=
  match e with
  | typed s => set_input s st
  | fileSelected f => set_selectedFile (Some f) st
  | fileRemoved => set_selectedFile None st
  | modeSet m => set_mode m st
  | sendClicked t1 t2 => if sendDisabled st then st else handleSubmit t1 t2 st
  | enterPressed t1 t2 => handleSubmit t1 t2 st
  | deleteClicked id0 => handleDeleteMessage id0 st
  | newChatClicked => handleNewChat st
  | settled k s => resume k s st
  | cloudLoaded parsed => loadFromCloud parsed st
  end.

Definition run (st : State) (es : list Event) : State := fold_left step es st.

(** Every state the transcript goes through, the first one included. *)
Fixpoint observed (st : State) (es : list Event) : list State :=
  st :: match es with
        | [] => []
        | e :: es' => observed (step st e) es'
        end.

(** ** Notions the statements use *)

(** Empty, or white space only. *)
Fixpoint blank (s : string) : bool :=
  match s with
  | String c s' => Js.isWhiteSpace c && blank s'
  | EmptyString => true
  end.

(** The concatenation [c1 + c2 + ... + cN] of the texts of the parts. *)
Definition concatenation (parts : list (option string)) : string :=
  String.concat "" (map partText parts).

(** The stream of task [k] yields [parts], one after the other. *)
Definition yields (k : nat) (parts : list (option string)) : list Event :=
  map (fun part => settled k (streamYields part)) parts.

(** The assistant message once it has content. *)
Definition answered (aiMessageId text : string) : Message :=
  {| id := aiMessageId; role := ai; content := text;
     file := None; isThinking := Some false |}.

(** Task [k] waits for the strategy, in the call or in the stream. *)
Definition awaitingStrategy (st : State) (k : nat)
    : option (list Message * string) :=
  match nth_error (tasks st) k with
  | Some (AwaitingChat updatedMessages2 aiMessageId) =>
      Some (updatedMessages2, aiMessageId)
  | Some (Streaming updatedMessages2 aiMessageId _) =>
      Some (updatedMessages2, aiMessageId)
  | _ => None
  end.

(** Some call of [handleSubmit] has not returned. *)
Definition inFlight (st : State) : bool :=
  existsb (fun t => match t with Returned => false | _ => true end) (tasks st).

(** No event of the list is Enter in the textarea. *)
Definition viaButton (es : list Event) : bool :=
  forallb (fun e => match e with enterPressed _ _ => false | _ => true end) es.

Definition isDelete (e : Event) : bool :=
  match e with
  | deleteClicked _ => true
  | _ => false
  end.

(** No transcript loaded from the store holds a pending message. *)
Definition settledLoads (es : list Event) : bool :=
  forallb (fun e => match e with
                    | cloudLoaded (Some msgs) => Nat.eqb (pendingCount msgs) 0
                    | _ => true
                    end) es.

(** What the lists a suspended call captured look like. *)
Definition taskSettles (t : Task) : Prop :=
  match t with
  | Ingesting messages0 userMessage _ _ _ =>
      pendingCount messages0 = 0 /\ pending userMessage = false
  | AwaitingChat updatedMessages2 aiMessageId
  | Streaming updatedMessages2 aiMessageId _ =>
      exists updatedMessages1,
        updatedMessages2 = (updatedMessages1 ++ [placeholder aiMessageId])%list
        /\ pendingCount updatedMessages1 = 0
  | Returned => True
  end.

(** The invariant of a session in which the form is only submitted with
    the send button. *)
Definition orderly (st : State) : Prop :=
  pendingCount (messages st) <= 1
  /\ (isLoading st = false -> pendingCount (messages st) = 0)
  /\ Forall taskSettles (tasks st).

(** [st'] is orderly and has saved, since [st], only transcripts without
    a pending message. *)
Definition quietly (st st' : State) : Prop :=
  orderly st'
  /\ exists snapshots,
       saved st' = (saved st ++ snapshots)%list
       /\ Forall (fun msgs => pendingCount msgs = 0) snapshots.

(** ** Notions for the rest of the component *)

(** [e] is a settlement of task [k]. *)
Definition settlesTask (k : nat) (e : Event) : bool :=
  match e with
  | settled k' _ => Nat.eqb k' k
  | _ => false
  end.

(** The string has no occurrence of the character. *)
Fixpoint lacks (c : ascii) (s : string) : bool :=
  match s with
  | String c' s' => negb (Ascii.eqb c' c) && lacks c s'
  | EmptyString => true
  end.

(** A call made through [puter.ai.chat] with [stream: true]. *)
Definition streamedByPuter (c : StrategyCall) : bool :=
  match c with
  | puterAiChat _ opts => stream opts
  | geminiGenerate _ => false
  end.

(** The file is awaited before the transcript is touched: a [pdf], an
    image, a [docx] or a [txt]. *)
Definition isRead (f : File) : bool :=
  (extensionIs f "pdf" || Js.startsWith (file_type f) "image/")
  || extensionIs f "docx" || extensionIs f "txt".

(** No event of the list settles task [k]. *)
Definition elsewhere (k : nat) (es : list Event) : bool :=
  forallb (fun e => negb (settlesTask k e)) es.

(** From [st] to [st'] the transcripts [snapshots] were handed to
    [saveToCloud], in that order, each written under the user's key when
    the client is loaded and none written otherwise; the environment is
    the same. *)
Definition persisted (st st' : State) (snapshots : list (list Message)) : Prop :=
  saved st' = (saved st ++ snapshots)%list
  /\ written st'
     = (written st
        ++ (if puter st
            then map (fun msgs => (storageKey (userEmail st), msgs)) snapshots
            else []))%list
  /\ puter st' = puter st
  /\ userEmail st' = userEmail st.

(** What every strategy call of the component is. *)
Definition promptOnly (c : StrategyCall) : Prop :=
  streamedByPuter c = true /\ transmitted c = None.

(** The type label under an attachment's name:
    [msg.file.type.split('/')[1] || 'FILE']. *)
Definition fileLabel (a : Attachment) : string :=
  match nth_error (Js.split "/" (type a)) 1 with
  | Some subtype => if Js.truthy subtype then subtype else "FILE"
  | None => "FILE"
  end.

(** ** [App.tsx] and [components/Auth.tsx]: the session gate

    [App] holds [user] and shows [Chat] for a truthy [user], [Auth]
    otherwise; [Auth] holds [error], which lives as long as that [Auth]
    is shown.  A call of [handlePuterSignIn] belongs to the [Auth] that
    was shown when Sign In was clicked: once that [Auth] is gone, its
    [setError] sets nothing, while its [onLogin] is still [App]'s.  The
    browser keeps the [localStorage] item [global_ai_current_user]
    across loads of the page. *)
Module Gate.

(** What [puter.auth.signIn()] settles to: a result, which may be
    missing or lack a [username], or a rejection.  The rejection's
    value may be [undefined] or [null] ([None]); otherwise it has a
    [message] or not. *)
Inductive SignIn : Set :=
| resolves (res : option (option string))
| rejects (err : option (option string)).

Record Page : Set := {
  user : option string;
  error : string;
  currentUser : option string;
  puterLoaded : bool;
  signingIn : nat;  (* calls of the [Auth] shown, suspended at their [await] *)
  orphans : nat     (* suspended calls of an [Auth] that is gone *)
}.

Inductive Screen : Set :=
| chatFor (userEmail : string)
| authScreen.

(** [user ? <Chat userEmail={user} /> : <Auth />] *)
Definition screenOf (u : option string) : Screen :=
  match u with
  | Some name => if Js.truthy name then chatFor name else authScreen
  | None => authScreen
  end.

Definition screen (p : Page) : Screen := screenOf (user p).

(** [setError(e)] of the [Auth] shown. *)
Definition setError (e : string) (p : Page) : Page :=
  match screen p with
  | authScreen =>
      {| user := user p; error := e; currentUser := currentUser p;
         puterLoaded := puterLoaded p; signingIn := signingIn p;
         orphans := orphans p |}
  | chatFor _ => p
  end.

(** [setUser(u)].  When the screen changes, the [Auth] shown goes with
    its state and leaves its suspended calls behind, or a new [Auth]
    comes with [error = '']. *)
Definition setUser (u : option string) (p : Page) : Page :=
  match screen p, screenOf u with
  | authScreen, chatFor _ =>
      {| user := u; error := ""; currentUser := currentUser p;
         puterLoaded := puterLoaded p; signingIn := 0;
         orphans := orphans p + signingIn p |}
  | chatFor _, authScreen =>
      {| user := u; error := ""; currentUser := currentUser p;
         puterLoaded := puterLoaded p; signingIn := 0;
         orphans := orphans p + signingIn p |}
  | _, _ =>
      {| user := u; error := error p; currentUser := currentUser p;
         puterLoaded := puterLoaded p; signingIn := signingIn p;
         orphans := orphans p |}
  end.

(** [localStorage.setItem('global_ai_current_user', name)] *)
Definition setItem (name : string) (p : Page) : Page :=
  {| user := user p; error := error p; currentUser := Some name;
     puterLoaded := puterLoaded p; signingIn := signingIn p;
     orphans := orphans p |}.

(** [localStorage.removeItem('global_ai_current_user')] *)
Definition removeItem (p : Page) : Page :=
  {| user := user p; error := error p; currentUser := None;
     puterLoaded := puterLoaded p; signingIn := signingIn p;
     orphans := orphans p |}.

(** The page is loaded: nothing is suspended any more, [App] mounts
    with [user = null] and its effect reads the stored identity. *)
Definition load (p : Page) : Page :=
  let p := {| user := None; error := ""; currentUser := currentUser p;
              puterLoaded := puterLoaded p; signingIn := 0; orphans := 0 |} in
  match currentUser p with
  | Some name => if Js.truthy name then setUser (Some name) p else p
  | None => p
  end.

(** [handlePuterSignIn], up to its [await]. *)
Definition handlePuterSignIn (p : Page) : Page :=
  let p := setError "" p in
  if puterLoaded p
  then {| user := user p; error := error p; currentUser := currentUser p;
          puterLoaded := puterLoaded p; signingIn := S (signingIn p);
          orphans := orphans p |}
  else
    (* [throw new Error('Puter.js is not loaded.')], caught below *)
    setError "Puter.js is not loaded." p.

(** The message the [catch] block sets, [err.message || 'Failed to sign
    in.']; reading [message] of [undefined] or [null] throws, and then
    no message is set. *)
Definition caught (err : option (option string)) : option string :=
  match err with
  | None => None
  | Some None => Some "Failed to sign in."
  | Some (Some message) =>
      Some (if Js.truthy message then message else "Failed to sign in.")
  end.

(** [handlePuterSignIn] from its [await] on; [shown] tells whether the
    [Auth] it belongs to is still the one shown. *)
Definition afterSignIn (shown : bool) (o : SignIn) (p : Page) : Page :=
  let complain e p := if shown then setError e p else p in
  match o with
  | resolves (Some (Some username)) =>
      if Js.truthy username
      then setUser (Some username) (setItem username p)
      else complain "Authentication failed." p
  | resolves _ => complain "Authentication failed." p
  | rejects err =>
      match caught err with
      | Some message => complain message p
      | None => p
      end
  end.

(** A call of the [Auth] shown settles. *)
Definition signInSettles (o : SignIn) (p : Page) : Page :=
  match signingIn p with
  | 0 => p
  | S n =>
      afterSignIn true o
        {| user := user p; error := error p; currentUser := currentUser p;
           puterLoaded := puterLoaded p; signingIn := n;
           orphans := orphans p |}
  end.

(** A call of an [Auth] that is gone settles. *)
Definition orphanSettles (o : SignIn) (p : Page) : Page :=
  match orphans p with
  | 0 => p
  | S n =>
      afterSignIn false o
        {| user := user p; error := error p; currentUser := currentUser p;
           puterLoaded := puterLoaded p; signingIn := signingIn p;
           orphans := n |}
  end.

(** [handleLogout] *)
Definition handleLogout (p : Page) : Page := setUser None (removeItem p).

Inductive Event : Set :=
| reloaded
| signInClicked
| signInSettled (o : SignIn)
| orphanSettled (o : SignIn)
| logoutClicked.

Definition step (p : Page) (e : Event) : Page :=
  match e with
  | reloaded => load p
  | signInClicked =>
      match screen p with
      | authScreen => handlePuterSignIn p
      | chatFor _ => p
      end
  | signInSettled o => signInSettles o p
  | orphanSettled o => orphanSettles o p
  | logoutClicked =>
      match screen p with
      | chatFor _ => handleLogout p
      | authScreen => p
      end
  end.

Definition run (p : Page) (es : list Event) : Page := fold_left step es p.

(** The page opened in a browser whose storage holds [stored]. *)
Definition opened (stored : option string) (puter0 : bool) : Page :=
  load {| user := None; error := ""; currentUser := stored;
          puterLoaded := puter0; signingIn := 0; orphans := 0 |}.

(** The sign-in comes back with a usable [username]. *)
Definition username (o : SignIn) : option string :=
  match o with
  | resolves (Some (Some u)) => if Js.truthy u then Some u else None
  | _ => None
  end.

End Gate.

(** The user [App] holds is a usable name and is the stored identity. *)
Definition shownIsStored (p : Gate.Page) : Prop :=
  match Gate.user p with
  | Some u => Js.truthy u = true /\ Gate.currentUser p = Some u
  | None => True
  end.

(** The events of the chat, under the name the page of [Voice] uses. *)
Definition ChatEvent : Set := Event.

(** ** [handleVoiceInput]

    The microphone, the [MediaRecorder] and [puter.ai.speech2txt] are
    the browser's and the provider's: the calls made to them are
    logged, and their callbacks and settlements arrive as events.  A
    piece of recorded audio is known by its size.  [recorder.stop()] is
    taken not to throw. *)
Module Voice.

(** What [puter.ai.speech2txt] resolves to: nothing, a string, or an
    object ([shown] is what it reads as when added to a string) with or
    without [text]. *)
Inductive Transcript : Set :=
| nothing
| plain (s : string)
| object (text : option string) (shown : string).

(** [transcript?.text ?? transcript], when [if (text)] lets it through,
    as the string that is added to the draft. *)
Definition spoken (t : Transcript) : option string :=
  match t with
  | nothing => None
  | plain s => if Js.truthy s then Some s else None
  | object (Some s) _ => if Js.truthy s then Some s else None
  | object None shown => Some shown
  end.

Record Recording : Set := {
  isRecording : bool;
  mediaRecorderRef : option nat;  (* the recorder last created *)
  audioChunksRef : list N;
  recorders : nat;                (* recorders created and started *)
  stopped : list nat;             (* [stop()] calls, by recorder *)
  released : list nat;            (* recorders whose tracks were stopped *)
  micRequests : nat;              (* [getUserMedia] calls not settled *)
  transcribing : list (list N);   (* [speech2txt] calls not settled, by audio *)
  alerts : list string
}.

Record Page : Set := { chat : State; voice : Recording }.

Definition idle : Recording :=
  {| isRecording := false; mediaRecorderRef := None; audioChunksRef := [];
     recorders := 0; stopped := []; released := []; micRequests := 0;
     transcribing := []; alerts := [] |}.

Definition alert (message : string) (v : Recording) : Recording :=
  {| isRecording := isRecording v; mediaRecorderRef := mediaRecorderRef v;
     audioChunksRef := audioChunksRef v; recorders := recorders v;
     stopped := stopped v; released := released v;
     micRequests := micRequests v; transcribing := transcribing v;
     alerts := (alerts v ++ [message])%list |}.

(** [handleVoiceInput], up to its [await]. *)
Definition handleVoiceInput (v : Recording) : Recording :=
  if isRecording v
  then
    {| isRecording := false; mediaRecorderRef := mediaRecorderRef v;
       audioChunksRef := audioChunksRef v; recorders := recorders v;
       stopped := match mediaRecorderRef v with
                  | Some r => (stopped v ++ [r])%list
                  | None => stopped v
                  end;
       released := released v; micRequests := micRequests v;
       transcribing := transcribing v; alerts := alerts v |}
  else
    {| isRecording := isRecording v; mediaRecorderRef := mediaRecorderRef v;
       audioChunksRef := audioChunksRef v; recorders := recorders v;
       stopped := stopped v; released := released v;
       micRequests := S (micRequests v);
       transcribing := transcribing v; alerts := alerts v |}.

(** [getUserMedia] resolves: a recorder is created, made current and
    started, and the buffer is emptied. *)
Definition micGrantedTo (v : Recording) : Recording :=
  match micRequests v with
  | 0 => v
  | S n =>
      {| isRecording := true; mediaRecorderRef := Some (recorders v);
         audioChunksRef := []; recorders := S (recorders v);
         stopped := stopped v; released := released v; micRequests := n;
         transcribing := transcribing v; alerts := alerts v |}
  end.

Definition micDeniedTo (v : Recording) : Recording :=
  match micRequests v with
  | 0 => v
  | S n =>
      alert "Microphone access is required for voice input."
        {| isRecording := isRecording v; mediaRecorderRef := mediaRecorderRef v;
           audioChunksRef := audioChunksRef v; recorders := recorders v;
           stopped := stopped v; released := released v; micRequests := n;
           transcribing := transcribing v; alerts := alerts v |}
  end.

(** [ondataavailable]: [if (event.data.size > 0) push] *)
Definition ondataavailable (size : N) (v : Recording) : Recording :=
  if (0 <? size)%N
  then
    {| isRecording := isRecording v; mediaRecorderRef := mediaRecorderRef v;
       audioChunksRef := (audioChunksRef v ++ [size])%list;
       recorders := recorders v; stopped := stopped v;
       released := released v; micRequests := micRequests v;
       transcribing := transcribing v; alerts := alerts v |}
  else v.

(** [onstop] of recorder [r], up to its [await]. *)
Definition onstop (r : nat) (p : Page) : Page :=
  if Nat.ltb r (recorders (voice p))
  then
    let v := voice p in
    let audioBlob := audioChunksRef v in
    let v := {| isRecording := isRecording v;
                mediaRecorderRef := mediaRecorderRef v;
                audioChunksRef := audioChunksRef v; recorders := recorders v;
                stopped := stopped v; released := (released v ++ [r])%list;
                micRequests := micRequests v;
                transcribing := transcribing v; alerts := alerts v |} in
    if puter (chat p)
    then
      {| chat := set_isLoading true (chat p);
         voice := {| isRecording := isRecording v;
                     mediaRecorderRef := mediaRecorderRef v;
                     audioChunksRef := audioChunksRef v;
                     recorders := recorders v; stopped := stopped v;
                     released := released v; micRequests := micRequests v;
                     transcribing := (transcribing v ++ [audioBlob])%list;
                     alerts := alerts v |} |}
    else
      (* [throw new Error('Puter.js is not loaded.')], [catch], [finally] *)
      {| chat := set_isLoading false (set_isLoading true (chat p));
         voice := alert "Failed to transcribe audio." v |}
  else p.

(** How a [speech2txt] call settles. *)
Inductive Heard : Set :=
| heard (t : Transcript)
| failed.

(** [setInput((prev) => prev + (prev ? ' ' : '') + text)] *)
Definition dictate (text : string) (st : State) : State :=
  set_input (input st ++ (if Js.truthy (input st) then " " else "") ++ text) st.

Definition without (i : nat) (l : list (list N)) : list (list N) :=
  (firstn i l ++ skipn (S i) l)%list.

(** [onstop] from its [await] on, for the [i]-th call not yet settled. *)
Definition transcribed (i : nat) (h : Heard) (p : Page) : Page :=
  match nth_error (transcribing (voice p)) i with
  | None => p
  | Some _ =>
      let v := voice p in
      let v := {| isRecording := isRecording v;
                  mediaRecorderRef := mediaRecorderRef v;
                  audioChunksRef := audioChunksRef v; recorders := recorders v;
                  stopped := stopped v; released := released v;
                  micRequests := micRequests v;
                  transcribing := without i (transcribing v);
                  alerts := alerts v |} in
      match h with
      | heard t =>
          let st := match spoken t with
                    | Some text => dictate text (chat p)
                    | None => chat p
                    end in
          {| chat := set_isLoading false st; voice := v |}
      | failed =>
          {| chat := set_isLoading false (chat p);
             voice := alert "Failed to transcribe audio." v |}
      end
  end.

Inductive Event : Set :=
| onChat (e : ChatEvent)
| micClicked
| micGranted
| micDenied
| dataAvailable (size : N)
| recorderStopped (r : nat)
| transcriptionSettled (i : nat) (h : Heard).

End Voice.

(** The chat screen with its microphone: one step. *)
Definition pageStep (p : Voice.Page) (e : Voice.Event) : Voice.Page :=
  let lift f := {| Voice.chat := Voice.chat p; Voice.voice := f (Voice.voice p) |} in
  match e with
  | Voice.onChat e' => {| Voice.chat := step (Voice.chat p) e'; Voice.voice := Voice.voice p |}
  | Voice.micClicked => lift Voice.handleVoiceInput
  | Voice.micGranted => lift Voice.micGrantedTo
  | Voice.micDenied => lift Voice.micDeniedTo
  | Voice.dataAvailable size => lift (Voice.ondataavailable size)
  | Voice.recorderStopped r => Voice.onstop r p
  | Voice.transcriptionSettled i h => Voice.transcribed i h p
  end.

Definition pageRun (p : Voice.Page) (es : list Voice.Event) : Voice.Page :=
  fold_left pageStep es p.

(** The chat screen as mounted, nothing recorded. *)
Definition pageMount (email : string) (puterLoaded : bool) : Voice.Page :=
  {| Voice.chat := mount email puterLoaded; Voice.voice := Voice.idle |}.





(** * Properties *)

(** ** Strings *)

Lemma trimStart_blank (s : string) : blank s = true -> Js.trimStart s = "".
Proof.
  induction s as [|c s IH]; simpl; [reflexivity|].
  intros H. apply andb_true_iff in H as [Hc Hs].
  rewrite Hc. now apply IH.
Qed.

Lemma trim_blank (s : string) : blank s = true -> Js.trim s = "".
Proof.
  intros H. unfold Js.trim. now rewrite trimStart_blank.
Qed.

Lemma trimStart_head (s : string) :
  Js.trimStart s = ""
  \/ exists c r, Js.trimStart s = String c r /\ Js.isWhiteSpace c = false.
Proof.
  induction s as [|c s IH]; simpl; [now left|].
  destruct (Js.isWhiteSpace c) eqn:Hc; [exact IH|].
  right. now exists c, s.
Qed.

Lemma trimStart_empty_blank (s : string) :
  Js.trimStart s = "" -> blank s = true.
Proof.
  induction s as [|c s IH]; simpl; [reflexivity|].
  destruct (Js.isWhiteSpace c); [exact IH | discriminate].
Qed.

Lemma blank_trim (s : string) : Js.trim s = "" -> blank s = true.
Proof.
  unfold Js.trim. intros H. apply trimStart_empty_blank.
  destruct (trimStart_head s) as [E | (c & r & E & Hc)]; [exact E|].
  rewrite E in H. simpl in H. rewrite Hc in H.
  destruct (Js.trimEnd r); discriminate.
Qed.

Lemma nothingToSend_blank (st : State) :
  selectedFile st = None -> blank (input st) = true -> nothingToSend st = true.
Proof.
  intros Hf Hb. unfold nothingToSend, Js.truthy.
  now rewrite Hf, (trim_blank _ Hb).
Qed.

Lemma append_empty_r (s : string) : s ++ "" = s.
Proof. induction s; simpl; congruence. Qed.

Lemma append_assoc (a b c : string) : (a ++ b) ++ c = a ++ (b ++ c).
Proof. induction a; simpl; congruence. Qed.

Lemma concat_cons (x : string) (l : list string) :
  String.concat "" (x :: l) = x ++ String.concat "" l.
Proof.
  destruct l as [|y l]; simpl; [now rewrite append_empty_r | reflexivity].
Qed.

(** The loop's [text += part?.text || ''] adds up to the concatenation. *)
Lemma concatenation_snoc (parts : list (option string)) (part : option string) :
  concatenation (parts ++ [part]) = concatenation parts ++ partText part.
Proof.
  unfold concatenation. rewrite map_app. simpl.
  induction (map partText parts) as [|x l IH].
  - simpl. reflexivity.
  - change ((x :: l) ++ [partText part])%list
      with (x :: (l ++ [partText part]))%list.
    now rewrite !concat_cons, IH, append_assoc.
Qed.

(** ** Tasks and the folded transcript *)

Lemma nth_error_put (k : nat) (t : Task) (ts : list Task) :
  k <= length ts -> nth_error (put k t ts) k = Some t.
Proof.
  intros H. unfold put.
  rewrite nth_error_app2; rewrite length_firstn, Nat.min_l by lia; [|lia].
  now rewrite Nat.sub_diag.
Qed.

Lemma nth_error_task (k : nat) (t t' : Task) (st : State) :
  nth_error (tasks st) k = Some t' ->
  nth_error (tasks (set_task k t st)) k = Some t.
Proof.
  intros H. simpl. apply nth_error_put.
  apply Nat.lt_le_incl, nth_error_Some. congruence.
Qed.

Lemma nth_error_new_task (t : Task) (st : State) :
  nth_error (tasks (set_task (length (tasks st)) t st)) (length (tasks st))
  = Some t.
Proof. simpl. now apply nth_error_put. Qed.

Lemma withContent_placeholder (a text : string) :
  withContent a text (placeholder a) = answered a text.
Proof. unfold withContent. simpl. now rewrite String.eqb_refl. Qed.

Lemma map_withContent_placeholder (a text : string) (l : list Message) :
  map (withContent a text) (l ++ [placeholder a])
  = (map (withContent a text) l ++ [answered a text])%list.
Proof. now rewrite map_app; simpl; rewrite withContent_placeholder. Qed.

Lemma pending_withContent (a text : string) (m : Message) :
  pending (withContent a text m) = true -> pending m = true.
Proof.
  unfold withContent. destruct (id m =? a); [discriminate | trivial].
Qed.

Lemma pendingCount_app (l1 l2 : list Message) :
  pendingCount (l1 ++ l2) = pendingCount l1 + pendingCount l2.
Proof. unfold pendingCount. now rewrite filter_app, length_app. Qed.

Lemma pendingCount_withContent (a text : string) (l : list Message) :
  pendingCount (map (withContent a text) l) <= pendingCount l.
Proof.
  unfold pendingCount. induction l as [|m l IH]; simpl; [lia|].
  destruct (pending (withContent a text m)) eqn:E.
  - rewrite (pending_withContent _ _ _ E). simpl. lia.
  - destruct (pending m); simpl; lia.
Qed.

Lemma pendingCount_filter (f : Message -> bool) (l : list Message) :
  pendingCount (filter f l) <= pendingCount l.
Proof.
  unfold pendingCount. induction l as [|m l IH]; simpl; [lia|].
  destruct (f m), (pending m) eqn:E; simpl; rewrite ?E; simpl; lia.
Qed.

(** The transcript a call leaves when it ends has no pending message if
    the one it started from had none. *)
Lemma pendingCount_finalUpdated (a text : string) (l : list Message) :
  pendingCount l = 0 ->
  pendingCount (map (withContent a text) (l ++ [placeholder a])) = 0.
Proof.
  intros H. rewrite map_withContent_placeholder, pendingCount_app.
  pose proof (pendingCount_withContent a text l). simpl. unfold pendingCount at 2.
  simpl. lia.
Qed.

(** ** C8: nothing to send *)

(** C8. Submitting with an empty or white-space-only draft and no
    attachment changes nothing, whether the send button or the Enter key
    is used: the transcript, the strategy calls issued and every other
    part of the state are what they were. *)
Theorem submit_blank_is_noop (st : State) (t1 t2 : N) :
  selectedFile st = None ->
  blank (input st) = true ->
  handleSubmit t1 t2 st = st
  /\ step st (enterPressed t1 t2) = st
  /\ step st (sendClicked t1 t2) = st.
Proof.
  intros Hf Hb. pose proof (nothingToSend_blank st Hf Hb) as H.
  assert (handleSubmit t1 t2 st = st) as E
    by (unfold handleSubmit; now rewrite H).
  repeat split; simpl; try exact E.
  now destruct (sendDisabled st).
Qed.

Lemma submit_blank_is_noop_witness :
  let st := set_input (String " " (Js.LF ++ " ")) (mount "ann" true) in
  (selectedFile st = None /\ blank (input st) = true)
  /\ handleSubmit 1000 1000 st = st
  /\ step st (enterPressed 1000 1000) = st
  /\ step st (sendClicked 1000 1000) = st.
Proof.
  split; [split; reflexivity|].
  apply (submit_blank_is_noop
           (set_input (String " " (Js.LF ++ " ")) (mount "ann" true))
           1000 1000); reflexivity.
Defined.

(** ** C5: deleting a message *)

(** Whatever the id, the transcript after [handleDeleteMessage] is the
    old one without the messages of that id, in the old order, and it is
    what is handed to [saveToCloud]. *)
Lemma delete_filters (id0 : string) (st : State) :
  let updated := filter (fun m => negb (id m =? id0)) (messages st) in
  messages (handleDeleteMessage id0 st) = updated
  /\ saved (handleDeleteMessage id0 st) = (saved st ++ [updated])%list
  /\ written (handleDeleteMessage id0 st)
     = (if puter st
        then written st ++ [(storageKey (userEmail st), updated)]
        else written st)%list.
Proof.
  unfold handleDeleteMessage, saveToCloud. simpl.
  destruct (puter st); simpl; auto.
Qed.

Lemma filter_others (id0 : string) (l : list Message) :
  (forall x, In x l -> id x <> id0) ->
  filter (fun m => negb (id m =? id0)) l = l.
Proof.
  induction l as [|m l IH]; simpl; intros H; [reflexivity|].
  destruct (String.eqb_spec (id m) id0) as [E|_]; simpl.
  - exfalso. apply (H m); auto.
  - f_equal. apply IH. intros x Hx. apply H. now right.
Qed.

(** C5. When [id0] is the id of one message of the transcript,
    [deleteMessage(id0)] leaves the messages before it followed by the
    messages after it, each unchanged and in the same order, and passes
    that transcript to the persistence operation, once; the write goes
    out when the storage client is loaded. *)
Theorem delete_removes_that_message
    (st : State) (id0 : string) (before after : list Message) (m : Message) :
  messages st = (before ++ m :: after)%list ->
  id m = id0 ->
  (forall x, In x before \/ In x after -> id x <> id0) ->
  let st' := step st (deleteClicked id0) in
  messages st' = (before ++ after)%list
  /\ saved st' = (saved st ++ [before ++ after])%list
  /\ (puter st = true ->
      written st'
      = (written st ++ [(storageKey (userEmail st), before ++ after)])%list).
Proof.
  intros Hm Hid Hother. simpl.
  destruct (delete_filters id0 st) as (E1 & E2 & E3).
  assert (filter (fun x => negb (id x =? id0)) (messages st)
          = (before ++ after)%list) as F.
  { rewrite Hm, filter_app. simpl.
    rewrite Hid, String.eqb_refl. simpl.
    rewrite !filter_others; auto. }
  rewrite F in E1, E2, E3.
  repeat split; auto. intros Hp. now rewrite Hp in E3.
Qed.

Lemma delete_removes_that_message_witness :
  let u := {| id := "1000"; role := user; content := "Hello";
              file := None; isThinking := None |} in
  let a := answered "1001" "Hi there" in
  let v := {| id := "2000"; role := user; content := "Bye";
              file := None; isThinking := None |} in
  let st := set_messages [u; a; v] (mount "ann" true) in
  let st' := step st (deleteClicked "1001") in
  (messages st = ([u] ++ a :: [v])%list /\ id a = "1001")
  /\ messages st' = [u; v]
  /\ saved st' = [[u; v]]
  /\ written st' = [("global_ai_chats_ann.json", [u; v])].
Proof.
  intros u a v st st'. split; [split; reflexivity|].
  assert (forall x, In x [u] \/ In x [v] -> id x <> "1001") as H
    by (intros x [[<-|[]]|[<-|[]]]; discriminate).
  destruct (delete_removes_that_message st "1001" [u] [v] a eq_refl eq_refl H)
    as (E1 & E2 & E3).
  split; [exact E1 | split; [exact E2 | exact (E3 eq_refl)]].
Defined.

(** ** An accepted submission, step by step *)

(** With the client loaded, the run from [updatedMessages1] to the
    [await] of [puter.ai.chat] leaves the user turn and the pending
    placeholder in the transcript, has handed the user turn to
    [saveToCloud], has issued one strategy call and waits for it. *)
Lemma afterIngestion_loaded (k : nat) (messages0 : list Message)
    (userMessage : Message) (fileDataForApi : option InlineData)
    (extractedText : string) (mode0 : Mode) (t2 : N) (st : State) :
  puter st = true ->
  let st' := afterIngestion k messages0 userMessage fileDataForApi
               extractedText mode0 t2 st in
  let updatedMessages2 :=
    ((messages0 ++ [userMessage]) ++ [placeholder (Js.toString (t2 + 1))])%list in
  messages st' = updatedMessages2
  /\ saved st' = (saved st ++ [messages0 ++ [userMessage]])%list
  /\ chats st'
     = (chats st
        ++ [strategyCall mode0 (composePrompt (content userMessage) extractedText)
              fileDataForApi])%list
  /\ tasks st'
     = put k (AwaitingChat updatedMessages2 (Js.toString (t2 + 1))) (tasks st)
  /\ isLoading st' = true
  /\ puter st' = true.
Proof.
  intros Hp. unfold afterIngestion, saveToCloud. simpl.
  rewrite Hp. simpl. rewrite Hp. simpl.
  repeat split; exact Hp.
Qed.

(** Without the client the same run ends in the [catch] block at once. *)
Lemma afterIngestion_unloaded (k : nat) (messages0 : list Message)
    (userMessage : Message) (fileDataForApi : option InlineData)
    (extractedText : string) (mode0 : Mode) (t2 : N) (st : State) :
  puter st = false ->
  exists st1,
    afterIngestion k messages0 userMessage fileDataForApi extractedText
      mode0 t2 st
    = finish k ((messages0 ++ [userMessage])
                ++ [placeholder (Js.toString (t2 + 1))])
        (Js.toString (t2 + 1)) apology st1
    /\ saved st1 = (saved st ++ [messages0 ++ [userMessage]])%list
    /\ tasks st1 = tasks st.
Proof.
  intros Hp. unfold afterIngestion, saveToCloud. simpl.
  rewrite Hp. simpl. rewrite Hp.
  eexists. split; [reflexivity|]. split; reflexivity.
Qed.

Lemma resume_ingesting (k : nat) (st : State) (messages0 : list Message)
    (userMessage : Message) (f : File) (what : Awaited) (mode0 : Mode)
    (v : string) (t2 : N) :
  nth_error (tasks st) k = Some (Ingesting messages0 userMessage f what mode0) ->
  resume k (ingestResolves v t2) st
  = afterIngestion k messages0
      (fst (fst (ingested what f v userMessage)))
      (snd (fst (ingested what f v userMessage)))
      (snd (ingested what f v userMessage)) mode0 t2 st.
Proof.
  intros H. unfold resume. rewrite H.
  now destruct (ingested what f v userMessage) as [[? ?] ?].
Qed.

Lemma extensionIs_exclusive (f : File) (e e' : string) :
  extensionIs f e = true -> e <> e' -> extensionIs f e' = false.
Proof.
  unfold extensionIs. destruct (extension f) as [x|]; [|discriminate].
  intros H Hne. apply String.eqb_eq in H. subst x.
  now apply String.eqb_neq.
Qed.

(** A [docx] or [txt] file that is not an image is awaited as text. *)
Lemma handleSubmit_document (st : State) (f : File) (t1 t2 : N) :
  selectedFile st = Some f ->
  Js.startsWith (file_type f) "image/" = false ->
  extensionIs f "docx" || extensionIs f "txt" = true ->
  exists what,
    (what = extractTextFromDocx \/ what = fileText)
    /\ handleSubmit t1 t2 st
       = set_task (length (tasks st))
           (Ingesting (messages st) (withFile f (newUserMessage t1 (input st)))
              f what (mode st)) st.
Proof.
  intros Hf Himg Hext. unfold handleSubmit, nothingToSend.
  rewrite Hf, andb_false_r, Himg, orb_false_r.
  apply orb_true_iff in Hext as [H|H].
  - rewrite (extensionIs_exclusive f "docx" "pdf" H) by discriminate.
    rewrite H. exists extractTextFromDocx. auto.
  - rewrite (extensionIs_exclusive f "txt" "pdf" H) by discriminate.
    rewrite (extensionIs_exclusive f "txt" "docx" H) by discriminate.
    rewrite H. exists fileText. auto.
Qed.

(** Submitting a document and having its text extracted issues one
    strategy call, whose prompt is composed from the draft and the
    extracted text. *)
Lemma submit_document (st : State) (f : File) (t1 t2 t3 : N) (extracted : string) :
  puter st = true ->
  selectedFile st = Some f ->
  Js.startsWith (file_type f) "image/" = false ->
  extensionIs f "docx" || extensionIs f "txt" = true ->
  chats (run st [enterPressed t1 t2;
                 settled (length (tasks st)) (ingestResolves extracted t3)])
  = (chats st
     ++ [strategyCall (mode st) (composePrompt (input st) extracted) None])%list.
Proof.
  intros Hp Hf Himg Hext.
  destruct (handleSubmit_document st f t1 t2 Hf Himg Hext) as (what & Hw & E).
  unfold run. simpl. rewrite E.
  rewrite (resume_ingesting _ _ _ _ _ _ _ _ _ (nth_error_new_task _ st)).
  assert (ingested what f extracted (withFile f (newUserMessage t1 (input st)))
          = (withFile f (newUserMessage t1 (input st)), None, extracted)) as I
    by (destruct Hw; subst what; reflexivity).
  rewrite I. simpl fst. simpl snd.
  match goal with
  | |- chats (afterIngestion ?k ?m ?u ?fd ?x ?md ?t ?s) = _ =>
      destruct (afterIngestion_loaded k m u fd x md t s Hp) as (_ & _ & C & _)
  end.
  exact C.
Qed.

(** ** C7 and C10: the composed prompt *)

Lemma promptOf_strategyCall (mode0 : Mode) (prompt : string)
    (fileDataForApi : option InlineData) :
  promptOf (strategyCall mode0 prompt fileDataForApi) = prompt.
Proof. now destruct mode0. Qed.

Lemma composePrompt_document (content0 extractedText : string) :
  extractedText <> "" ->
  composePrompt content0 extractedText
  = "Document Content:" ++ Js.LF ++ extractedText ++ Js.LF ++ Js.LF
    ++ "User Query: "
    ++ (if content0 =? "" then "Analyze this document." else content0).
Proof.
  intros H. unfold composePrompt, Js.truthy.
  apply String.eqb_neq in H. rewrite H. simpl negb.
  now destruct (content0 =? "").
Qed.

(** C7. When a [docx] or [txt] attachment yields extracted text, the
    strategy is called once, with a prompt that reads: the heading
    [Document Content:], a line break, the extracted text, an empty
    line, the label [User Query: ], and the query.  The query is the
    text the user typed, whenever the user typed any.  So the document
    comes first, and the label separates it from the instruction. *)
Theorem document_precedes_query
    (st : State) (f : File) (t1 t2 t3 : N) (extracted : string) :
  puter st = true ->
  selectedFile st = Some f ->
  Js.startsWith (file_type f) "image/" = false ->
  extensionIs f "docx" || extensionIs f "txt" = true ->
  extracted <> "" ->
  exists call query,
    chats (run st [enterPressed t1 t2;
                   settled (length (tasks st)) (ingestResolves extracted t3)])
    = (chats st ++ [call])%list
    /\ promptOf call
       = "Document Content:" ++ Js.LF ++ extracted ++ Js.LF ++ Js.LF
         ++ "User Query: " ++ query
    /\ (input st = "" \/ query = input st).
Proof.
  intros Hp Hf Himg Hext Hx.
  exists (strategyCall (mode st) (composePrompt (input st) extracted) None).
  exists (if input st =? "" then "Analyze this document." else input st).
  split; [now apply (submit_document st f)|].
  split; [now rewrite promptOf_strategyCall, composePrompt_document|].
  destruct (String.eqb_spec (input st) ""); auto.
Qed.

(** C10. When the draft is empty and a [docx] or [txt] attachment yields
    non-empty extracted text, the prompt of the strategy call ends with
    [User Query: Analyze this document.] after the document content. *)
Theorem empty_query_defaults
    (st : State) (f : File) (t1 t2 t3 : N) (extracted : string) :
  puter st = true ->
  selectedFile st = Some f ->
  Js.startsWith (file_type f) "image/" = false ->
  extensionIs f "docx" || extensionIs f "txt" = true ->
  input st = "" ->
  extracted <> "" ->
  exists call,
    chats (run st [enterPressed t1 t2;
                   settled (length (tasks st)) (ingestResolves extracted t3)])
    = (chats st ++ [call])%list
    /\ promptOf call
       = "Document Content:" ++ Js.LF ++ extracted ++ Js.LF ++ Js.LF
         ++ "User Query: Analyze this document.".
Proof.
  intros Hp Hf Himg Hext Hin Hx.
  exists (strategyCall (mode st) (composePrompt (input st) extracted) None).
  split; [now apply (submit_document st f)|].
  now rewrite promptOf_strategyCall, composePrompt_document, Hin.
Qed.

Lemma document_precedes_query_witness :
  let notes := {| file_name := "notes.txt"; file_type := "text/plain";
                  blob_url := "blob:notes" |} in
  let st := run (mount "ann" true) [fileSelected notes; typed "Summarize"] in
  (puter st = true /\ selectedFile st = Some notes
   /\ Js.startsWith (file_type notes) "image/" = false
   /\ extensionIs notes "docx" || extensionIs notes "txt" = true
   /\ "Budget: $500" <> "")
  /\ exists call query,
       chats (run st [enterPressed 1000 1000;
                      settled (length (tasks st))
                        (ingestResolves "Budget: $500" 1002)])
       = (chats st ++ [call])%list
       /\ promptOf call
          = "Document Content:" ++ Js.LF ++ "Budget: $500" ++ Js.LF ++ Js.LF
            ++ "User Query: " ++ query
       /\ (input st = "" \/ query = input st).
Proof.
  intros notes st.
  split; [repeat split; try reflexivity; discriminate|].
  apply (document_precedes_query st notes 1000 1000 1002 "Budget: $500");
    try reflexivity.
  discriminate.
Defined.

Lemma empty_query_defaults_witness :
  let report := {| file_name := "Report.DOCX";
                   file_type := "application/vnd.openxmlformats-officedocument.wordprocessingml.document";
                   blob_url := "blob:report" |} in
  let st := run (mount "ann" true) [fileSelected report] in
  (puter st = true /\ selectedFile st = Some report
   /\ Js.startsWith (file_type report) "image/" = false
   /\ extensionIs report "docx" || extensionIs report "txt" = true
   /\ input st = "" /\ "Quarterly figures" <> "")
  /\ exists call,
       chats (run st [enterPressed 1000 1000;
                      settled (length (tasks st))
                        (ingestResolves "Quarterly figures" 1002)])
       = (chats st ++ [call])%list
       /\ promptOf call
          = "Document Content:" ++ Js.LF ++ "Quarterly figures" ++ Js.LF ++ Js.LF
            ++ "User Query: Analyze this document.".
Proof.
  intros report st.
  split; [repeat split; try reflexivity; discriminate|].
  apply (empty_query_defaults st report 1000 1000 1002 "Quarterly figures");
    try reflexivity.
  discriminate.
Defined.

(** ** C4: a failing strategy *)

Lemma finish_spec (k : nat) (updatedMessages2 : list Message)
    (a text : string) (st : State) :
  let st' := finish k updatedMessages2 a text st in
  let finalUpdated := map (withContent a text) updatedMessages2 in
  messages st' = finalUpdated
  /\ saved st' = (saved st ++ [finalUpdated])%list
  /\ written st'
     = (if puter st
        then written st ++ [(storageKey (userEmail st), finalUpdated)]
        else written st)%list
  /\ isLoading st' = false
  /\ chats st' = chats st
  /\ tasks st' = put k Returned (tasks st).
Proof.
  unfold finish, saveToCloud. simpl. destruct (puter st); simpl; repeat split.
Qed.

Lemma resume_returned (k : nat) (s : Settlement) (st : State) :
  nth_error (tasks st) k = Some Returned -> resume k s st = st.
Proof. intros H. unfold resume. rewrite H. now destruct s. Qed.

Lemma awaitingStrategy_lt (st : State) (k : nat) (um2 : list Message) (a : string) :
  awaitingStrategy st k = Some (um2, a) -> k <= length (tasks st).
Proof.
  unfold awaitingStrategy. intros H.
  apply Nat.lt_le_incl, nth_error_Some.
  destruct (nth_error (tasks st) k); [discriminate | discriminate].
Qed.

Lemma resume_fails (k : nat) (st : State) (um2 : list Message) (a : string) :
  awaitingStrategy st k = Some (um2, a) ->
  resume k strategyFails st = finish k um2 a apology st.
Proof.
  unfold awaitingStrategy, resume.
  destruct (nth_error (tasks st) k) as [[| | |]|]; try discriminate;
    intros H; injection H as <- <-; reflexivity.
Qed.

(** C4. When the strategy raises a failure, in the call or in the
    stream, the pending assistant message gets the sentence
    [Sorry, I encountered an error processing your request.] as content
    and [isThinking = false]; the resulting transcript is handed to
    [saveToCloud] once (and written, the client being loaded), and the
    call has returned: nothing that settles for it later saves again. *)
Theorem failure_shows_apology
    (st : State) (k : nat) (updatedMessages1 : list Message) (a : string) :
  awaitingStrategy st k = Some ((updatedMessages1 ++ [placeholder a])%list, a) ->
  let sentence := "Sorry, I encountered an error processing your request." in
  let st' := step st (settled k strategyFails) in
  messages st'
  = (map (withContent a sentence) updatedMessages1
     ++ [{| id := a; role := ai; content := sentence;
            file := None; isThinking := Some false |}])%list
  /\ saved st' = (saved st ++ [messages st'])%list
  /\ (puter st = true ->
      written st'
      = (written st ++ [(storageKey (userEmail st), messages st')])%list)
  /\ isLoading st' = false
  /\ forall s, step st' (settled k s) = st'.
Proof.
  intros H. cbv zeta.
  change "Sorry, I encountered an error processing your request." with apology.
  change {| id := a; role := ai; content := apology;
            file := None; isThinking := Some false |}
    with (answered a apology).
  simpl. rewrite (resume_fails _ _ _ _ H).
  destruct (finish_spec k (updatedMessages1 ++ [placeholder a]) a apology st)
    as (E1 & E2 & E3 & E4 & _ & E6).
  rewrite map_withContent_placeholder in E1, E2, E3.
  rewrite E1. repeat split; auto.
  - intros Hp. now rewrite Hp in E3.
  - intros s. apply resume_returned. rewrite E6.
    apply nth_error_put. exact (awaitingStrategy_lt st k _ a H).
Qed.

Lemma failure_shows_apology_witness :
  let hello := newUserMessage 1000 "Hello" in
  let sorry :=
    {| id := "1001"; role := ai;
       content := "Sorry, I encountered an error processing your request.";
       file := None; isThinking := Some false |} in
  let st := run (mount "ann" true)
              [typed "Hello"; enterPressed 1000 1000; settled 0 chatResolves;
               settled 0 (streamYields (Some "Par"))] in
  let st' := step st (settled 0 strategyFails) in
  awaitingStrategy st 0 = Some (([hello] ++ [placeholder "1001"])%list, "1001")
  /\ messages st' = [hello; sorry]
  /\ saved st' = [[hello]; [hello; sorry]]
  /\ isLoading st' = false.
Proof.
  intros hello sorry st st'.
  destruct (failure_shows_apology st 0 [hello] "1001" eq_refl)
    as (E1 & E2 & _ & E4 & _).
  split; [reflexivity|].
  split; [exact E1|]. split; [exact E2 | exact E4].
Defined.

(** ** C2: folding the stream *)

Lemma concatenation_cons (part : option string) (parts : list (option string)) :
  concatenation (part :: parts) = partText part ++ concatenation parts.
Proof. unfold concatenation. simpl map. apply concat_cons. Qed.

Lemma resume_chatResolves (k : nat) (st : State) (um2 : list Message) (a : string) :
  nth_error (tasks st) k = Some (AwaitingChat um2 a) ->
  resume k chatResolves st = set_task k (Streaming um2 a "") st.
Proof. intros H. unfold resume. now rewrite H. Qed.

Lemma resume_streamYields (k : nat) (st : State) (um2 : list Message)
    (a text : string) (part : option string) :
  nth_error (tasks st) k = Some (Streaming um2 a text) ->
  resume k (streamYields part) st
  = set_task k (Streaming um2 a (text ++ partText part))
      (set_messages (map (withContent a (text ++ partText part)) um2) st).
Proof. intros H. unfold resume. now rewrite H. Qed.

Lemma resume_streamEnds (k : nat) (st : State) (um2 : list Message)
    (a text : string) :
  nth_error (tasks st) k = Some (Streaming um2 a text) ->
  resume k streamEnds st = finish k um2 a text st.
Proof. intros H. unfold resume. now rewrite H. Qed.

(** The loop of [for await (const part of chat_resp)]: after the parts
    so far, [text] is the text before them followed by their
    concatenation, the transcript is the captured list with that text in
    the assistant message, and nothing has been saved. *)
Lemma stream_folds (k : nat) (um2 : list Message) (a : string)
    (parts : list (option string)) :
  forall (st : State) (text : string),
    nth_error (tasks st) k = Some (Streaming um2 a text) ->
    let st' := run st (yields k parts) in
    nth_error (tasks st') k
    = Some (Streaming um2 a (text ++ concatenation parts))
    /\ messages st'
       = match parts with
         | [] => messages st
         | _ => map (withContent a (text ++ concatenation parts)) um2
         end
    /\ saved st' = saved st
    /\ written st' = written st
    /\ puter st' = puter st
    /\ userEmail st' = userEmail st.
Proof.
  induction parts as [|part parts IH]; intros st text H.
  - simpl. unfold concatenation. simpl. rewrite append_empty_r.
    repeat split; assumption.
  - unfold yields, run in *. simpl map. simpl fold_left.
    rewrite (resume_streamYields _ _ _ _ _ _ H).
    match goal with
    | |- context [fold_left step _ ?s] =>
        specialize (IH s (text ++ partText part) (nth_error_task _ _ _ _ H))
    end.
    simpl in IH. destruct IH as (T & M & S & W & P & U).
    rewrite concatenation_cons, <- append_assoc.
    repeat split; try assumption.
    rewrite M. destruct parts; [|reflexivity].
    simpl. unfold concatenation. simpl. now rewrite append_empty_r.
Qed.

Lemma run_cons (st : State) (e : Event) (es : list Event) :
  run st (e :: es) = run (step st e) es.
Proof. reflexivity. Qed.

Lemma run_snoc (st : State) (es : list Event) (e : Event) :
  run st (es ++ [e]) = step (run st es) e.
Proof. unfold run. now rewrite fold_left_app. Qed.

(** C2, as the code has it. A submission waits for the strategy with its
    placeholder pending.  Once the strategy returns its stream, the
    transcript after the first [n] parts has, for [n = 0], the
    placeholder still pending and, for every [n >= 1], the assistant
    message with the concatenation of those [n] parts as content and
    [isThinking = false]: the flag is cleared by the first part, not by
    the last.  After the stream has ended the content is the
    concatenation of all the parts, the flag is false and that
    transcript is handed to [saveToCloud]. *)
Theorem chunks_fold_to_concatenation
    (st : State) (k : nat) (updatedMessages1 : list Message) (a : string)
    (parts : list (option string)) :
  nth_error (tasks st) k
  = Some (AwaitingChat (updatedMessages1 ++ [placeholder a]) a) ->
  messages st = (updatedMessages1 ++ [placeholder a])%list ->
  (forall n, n <= length parts ->
     messages (run st (settled k chatResolves :: yields k (firstn n parts)))
     = match n with
       | 0 => updatedMessages1 ++ [placeholder a]
       | _ => map (withContent a (concatenation (firstn n parts))) updatedMessages1
              ++ [answered a (concatenation (firstn n parts))]
       end%list)
  /\ let st' := run st (settled k chatResolves
                        :: yields k parts ++ [settled k streamEnds]) in
     messages st'
     = (map (withContent a (concatenation parts)) updatedMessages1
        ++ [answered a (concatenation parts)])%list
     /\ saved st' = (saved st ++ [messages st'])%list.
Proof.
  intros Ht Hm.
  assert (nth_error (tasks (step st (settled k chatResolves))) k
          = Some (Streaming (updatedMessages1 ++ [placeholder a]) a "")) as Hs.
  { simpl. rewrite (resume_chatResolves _ _ _ _ Ht).
    apply (nth_error_task _ _ _ _ Ht). }
  assert (messages (step st (settled k chatResolves)) = messages st
          /\ saved (step st (settled k chatResolves)) = saved st) as [Hm1 Hs1].
  { simpl. now rewrite (resume_chatResolves _ _ _ _ Ht). }
  split.
  - intros n Hn. rewrite run_cons.
    destruct (stream_folds k _ a (firstn n parts) _ "" Hs) as (_ & M & _).
    rewrite M. destruct n as [|n].
    + change (firstn 0 parts) with (@nil (option string)).
      cbv iota. now rewrite Hm1.
    + destruct parts as [|p ps]; [simpl in Hn; lia|].
      simpl firstn. cbv iota. simpl append.
      apply map_withContent_placeholder.
  - rewrite app_comm_cons, run_snoc, run_cons.
    destruct (stream_folds k _ a parts _ "" Hs) as (T & _ & S & _).
    simpl append in T.
    change (step ?s (settled k streamEnds)) with (resume k streamEnds s).
    rewrite (resume_streamEnds _ _ _ _ _ T).
    destruct (finish_spec k (updatedMessages1 ++ [placeholder a]) a
                (concatenation parts)
                (run (step st (settled k chatResolves)) (yields k parts)))
      as (E1 & E2 & _).
    rewrite map_withContent_placeholder in E1, E2.
    cbv zeta. rewrite E1, E2, S, Hs1. now split.
Qed.

Lemma chunks_fold_to_concatenation_witness :
  let hi := newUserMessage 1000 "Hi" in
  let st := run (mount "ann" true) [typed "Hi"; sendClicked 1000 1000] in
  let parts := [Some "He"; None; Some "llo"] in
  (nth_error (tasks st) 0 = Some (AwaitingChat ([hi] ++ [placeholder "1001"]) "1001")
   /\ messages st = ([hi] ++ [placeholder "1001"])%list)
  /\ messages (run st (settled 0 chatResolves :: yields 0 (firstn 0 parts)))
     = [hi; placeholder "1001"]
  /\ messages (run st (settled 0 chatResolves :: yields 0 (firstn 1 parts)))
     = [hi; answered "1001" "He"]
  /\ messages (run st (settled 0 chatResolves
                       :: yields 0 parts ++ [settled 0 streamEnds]))
     = [hi; answered "1001" "Hello"].
Proof.
  intros hi st parts.
  destruct (chunks_fold_to_concatenation st 0 [hi] "1001" parts eq_refl eq_refl)
    as (F & L & _).
  split; [split; reflexivity|].
  split; [exact (F 0 (Nat.le_0_l _))|].
  split; [|exact L].
  refine (F 1 _). simpl. lia.
Defined.

(** C2 as stated fails: of a stream of two parts, the first already
    clears the flag of the assistant message, while the second is still
    to come. *)
Lemma pending_cleared_by_first_chunk :
  let parts := [Some "He"; Some "llo"] in
  let st := run (mount "ann" true)
              (typed "Hi" :: enterPressed 1000 1000 :: settled 0 chatResolves
               :: yields 0 (firstn 1 parts)) in
  messages st = [newUserMessage 1000 "Hi"; answered "1001" "He"]
  /\ map pending (messages st) = [false; false]
  /\ messages (step st (settled 0 (streamYields (Some "llo"))))
     = [newUserMessage 1000 "Hi"; answered "1001" "Hello"].
Proof. repeat split. Qed.

(** ** C6: attachments sent inline *)

Lemma split_cons (sep : ascii) (s : string) :
  exists piece rest, Js.split sep s = piece :: rest.
Proof.
  induction s as [|c s (piece & rest & IH)]; simpl; [now eexists _, _|].
  destruct (Ascii.eqb c sep); [now eexists _, _|].
  rewrite IH. now eexists _, _.
Qed.

Lemma split_none (sep : ascii) (s : string) :
  (forall n, String.get n s <> Some sep) -> Js.split sep s = [s].
Proof.
  induction s as [|c s IH]; simpl; intros H; [reflexivity|].
  destruct (Ascii.eqb_spec c sep) as [->|_].
  - now elim (H 0).
  - rewrite IH; [reflexivity|]. intros n. exact (H (S n)).
Qed.

(** A data URL has its header before the first comma and the base64
    text after it; [split(',')[1]] is the base64 text. *)
Lemma split_dataUrl (header body : string) :
  (forall n, String.get n header <> Some ","%char) ->
  (forall n, String.get n body <> Some ","%char) ->
  nth_error (Js.split "," (header ++ String "," body)) 1 = Some body.
Proof.
  intros Hh Hb. induction header as [|c h IH]; simpl.
  - now rewrite (split_none _ _ Hb).
  - destruct (Ascii.eqb_spec c ","%char) as [->|_]; [now elim (Hh 0)|].
    destruct (split_cons "," (h ++ String "," body)) as (piece & rest & E).
    rewrite E in *. simpl in *. apply IH. intros n. exact (Hh (S n)).
Qed.

(** A [pdf] file or an image is read as a data URL. *)
Lemma handleSubmit_inline (st : State) (f : File) (t1 t2 : N) :
  selectedFile st = Some f ->
  extensionIs f "pdf" || Js.startsWith (file_type f) "image/" = true ->
  handleSubmit t1 t2 st
  = set_task (length (tasks st))
      (Ingesting (messages st) (withFile f (newUserMessage t1 (input st)))
         f fileToBase64 (mode st)) st.
Proof.
  intros Hf H. unfold handleSubmit, nothingToSend.
  now rewrite Hf, andb_false_r, H.
Qed.

(** Ingestion of such a file, the part of C6 the code keeps: the inline
    payload has the text after the comma of the data URL as [data] and
    the file's type as [mimeType]; the user message that enters the
    transcript has the whole data URL as the attachment's [url]; one
    strategy call is issued. *)
Lemma inline_ingestion (st : State) (f : File) (t1 t2 t3 : N)
    (header body : string) :
  puter st = true ->
  selectedFile st = Some f ->
  extensionIs f "pdf" || Js.startsWith (file_type f) "image/" = true ->
  (forall n, String.get n header <> Some ","%char) ->
  (forall n, String.get n body <> Some ","%char) ->
  let base64Url := header ++ String "," body in
  let userMessage := withFile f (newUserMessage t1 (input st)) in
  let fileDataForApi := {| data := Some body; mimeType := file_type f |} in
  let st' := run st [enterPressed t1 t2;
                     settled (length (tasks st)) (ingestResolves base64Url t3)] in
  ingested fileToBase64 f base64Url userMessage
  = (withUrl base64Url userMessage, Some fileDataForApi, "")
  /\ file (withUrl base64Url userMessage)
     = Some {| name := file_name f; type := file_type f; url := base64Url |}
  /\ messages st'
     = (messages st ++ [withUrl base64Url userMessage]
        ++ [placeholder (Js.toString (t3 + 1))])%list
  /\ chats st'
     = (chats st ++ [strategyCall (mode st) (input st) (Some fileDataForApi)])%list.
Proof.
  intros Hp Hf Hk Hh Hb base64Url userMessage fileDataForApi st'.
  assert (ingested fileToBase64 f base64Url userMessage
          = (withUrl base64Url userMessage, Some fileDataForApi, "")) as I.
  { unfold ingested, fileDataForApi, base64Url.
    now rewrite (split_dataUrl _ _ Hh Hb). }
  split; [exact I|]. split; [reflexivity|].
  unfold st', run. simpl fold_left.
  rewrite (handleSubmit_inline st f t1 t2 Hf Hk).
  rewrite (resume_ingesting _ _ _ _ _ _ _ _ _ (nth_error_new_task _ st)).
  fold userMessage. rewrite I. simpl fst. simpl snd.
  match goal with
  | |- context [afterIngestion ?k ?m ?u ?fd ?x ?md ?t ?s] =>
      destruct (afterIngestion_loaded k m u fd x md t s Hp)
        as (M & _ & C & _)
  end.
  rewrite M, C, <- app_assoc. split; reflexivity.
Qed.

(** Neither mode passes [fileDataForApi] on: the call of either carries
    the prompt only.  The branch that would pass it is the one no mode
    selects. *)
Lemma strategyCall_transmits_nothing (mode0 : Mode) (prompt : string)
    (fileDataForApi : option InlineData) :
  transmitted (strategyCall mode0 prompt fileDataForApi) = None.
Proof. now destruct mode0. Qed.

Lemma unreachedElse_transmits (prompt : string) (d : InlineData) :
  transmitted (unreachedElse prompt (Some d)) = Some d.
Proof. reflexivity. Qed.

(** C6, where the code departs from it. [photo.png] is submitted in the
    default mode with the question [What is this?].  Its payload is
    built and the data URL recorded on the message, but the one strategy
    call issued is [puter.ai.chat] with the prompt alone; the payload
    stays behind. *)
Theorem image_payload_not_transmitted :
  let photo := {| file_name := "photo.png"; file_type := "image/png";
                  blob_url := "blob:photo" |} in
  let base64Url := "data:image/png;base64,iVBORw0KGgo=" in
  let payload := {| data := Some "iVBORw0KGgo="; mimeType := "image/png" |} in
  let st := run (mount "ann" true)
              [fileSelected photo; typed "What is this?";
               enterPressed 1000 1000;
               settled 0 (ingestResolves base64Url 1002)] in
  snd (fst (ingested fileToBase64 photo base64Url
              (withFile photo (newUserMessage 1000 "What is this?"))))
  = Some payload
  /\ option_map url (file (hd (placeholder "") (messages st))) = Some base64Url
  /\ chats st
     = [puterAiChat "What is this?"
          {| model := "openai/gpt-5.2-chat"; stream := true; web_search := true |}]
  /\ map transmitted (chats st) = [None]
  /\ transmitted (unreachedElse "What is this?" (Some payload)) = Some payload.
Proof. repeat split. Qed.

(** ** Sessions submitted with the send button *)

Lemma Forall_put (P : Task -> Prop) (k : nat) (t : Task) (ts : list Task) :
  Forall P ts -> P t -> Forall P (put k t ts).
Proof.
  intros H Ht. revert ts H. unfold put.
  induction k as [|k IH]; intros [|x ts] H; simpl;
    try (constructor; [exact Ht | constructor]).
  - inversion H; subst. now constructor.
  - inversion H; subst. constructor; [assumption | now apply IH].
Qed.

Lemma Forall_nth_error (P : Task -> Prop) (k : nat) (t : Task) (ts : list Task) :
  Forall P ts -> nth_error ts k = Some t -> P t.
Proof.
  intros H E. rewrite Forall_forall in H. apply H.
  now apply nth_error_In with k.
Qed.

Lemma mount_orderly (email : string) (puterLoaded : bool) :
  orderly (mount email puterLoaded).
Proof. repeat split; simpl; auto. Qed.

Lemma quietly_same (st : State) : orderly st -> quietly st st.
Proof.
  intros H. split; [exact H|]. exists []. now rewrite app_nil_r.
Qed.

Lemma pendingCount_updatedMessages2 (l : list Message) (a : string) :
  pendingCount l = 0 -> pendingCount (l ++ [placeholder a]) = 1.
Proof. intros H. rewrite pendingCount_app, H. reflexivity. Qed.

Lemma pendingCount_updatedMessages1 (l : list Message) (m : Message) :
  pendingCount l = 0 -> pending m = false -> pendingCount (l ++ [m]) = 0.
Proof.
  intros H Hm. rewrite pendingCount_app, H. unfold pendingCount. simpl.
  now rewrite Hm.
Qed.

Lemma finish_quietly (k : nat) (l : list Message) (a text : string) (st : State) :
  Forall taskSettles (tasks st) ->
  pendingCount l = 0 ->
  quietly st (finish k (l ++ [placeholder a]) a text st).
Proof.
  intros Ht Hl.
  destruct (finish_spec k (l ++ [placeholder a]) a text st)
    as (M & S & _ & L & _ & T).
  pose proof (pendingCount_finalUpdated a text l Hl) as Z.
  split.
  - unfold orderly. rewrite M, T, Z. repeat split; auto.
    now apply Forall_put.
  - eexists. split; [exact S|]. now constructor.
Qed.

Lemma afterIngestion_quietly (k : nat) (messages0 : list Message)
    (userMessage : Message) (fileDataForApi : option InlineData)
    (extractedText : string) (mode0 : Mode) (t2 : N) (st : State) :
  Forall taskSettles (tasks st) ->
  pendingCount messages0 = 0 ->
  pending userMessage = false ->
  quietly st (afterIngestion k messages0 userMessage fileDataForApi
                extractedText mode0 t2 st).
Proof.
  intros Ht H0 Hu.
  pose proof (pendingCount_updatedMessages1 _ _ H0 Hu) as H1.
  destruct (puter st) eqn:Hp.
  - destruct (afterIngestion_loaded k messages0 userMessage fileDataForApi
                extractedText mode0 t2 st Hp) as (M & S & _ & T & L & _).
    split.
    + unfold orderly. rewrite M, T, L.
      rewrite (pendingCount_updatedMessages2 _ _ H1).
      repeat split; auto; try discriminate.
      apply Forall_put; [exact Ht|]. simpl. eauto.
    + eexists. split; [exact S|]. now constructor.
  - destruct (afterIngestion_unloaded k messages0 userMessage fileDataForApi
                extractedText mode0 t2 st Hp) as (st1 & -> & S1 & T1).
    rewrite <- T1 in Ht.
    destruct (finish_quietly k (messages0 ++ [userMessage])
                (Js.toString (t2 + 1)) apology st1 Ht H1)
      as (O & snapshots & S & F).
    split; [exact O|].
    exists ((messages0 ++ [userMessage]) :: snapshots)%list.
    split; [|now constructor].
    rewrite S, S1. now rewrite <- app_assoc.
Qed.

Lemma set_task_quietly (k : nat) (t : Task) (st : State) :
  orderly st -> taskSettles t -> quietly st (set_task k t st).
Proof.
  intros (A & B & C) Ht. split.
  - repeat split; simpl; auto. now apply Forall_put.
  - exists []. simpl. now rewrite app_nil_r.
Qed.

Lemma handleSubmit_quietly (t1 t2 : N) (st : State) :
  orderly st ->
  pendingCount (messages st) = 0 ->
  quietly st (handleSubmit t1 t2 st).
Proof.
  intros O Z. pose proof O as (_ & _ & Ht). unfold handleSubmit.
  destruct (nothingToSend st); [now apply quietly_same|].
  destruct (selectedFile st) as [f|].
  - assert (forall what,
              quietly st
                (set_task (length (tasks st))
                   (Ingesting (messages st)
                      (withFile f (newUserMessage t1 (input st))) f what
                      (mode st)) st)) as I
      by (intros what; apply set_task_quietly; [exact O | split; trivial]).
    destruct (extensionIs f "pdf" || Js.startsWith (file_type f) "image/");
      [apply I|].
    destruct (extensionIs f "docx"); [apply I|].
    destruct (extensionIs f "txt"); [apply I|].
    apply afterIngestion_quietly; trivial.
  - apply afterIngestion_quietly; trivial.
Qed.

Lemma pending_ingested (what : Awaited) (f : File) (v : string) (m : Message) :
  pending (fst (fst (ingested what f v m))) = pending m.
Proof. now destruct what. Qed.

Lemma resume_quietly (k : nat) (s : Settlement) (st : State) :
  orderly st -> quietly st (resume k s st).
Proof.
  intros O. pose proof O as (A & B & Ht).
  destruct (nth_error (tasks st) k) as [t|] eqn:E;
    [|unfold resume; rewrite E; now apply quietly_same].
  pose proof (Forall_nth_error _ _ _ _ Ht E) as Hk.
  destruct t as [m0 um f what md | um2 a | um2 a text |]; simpl in Hk.
  - destruct Hk as [H0 Hu]. destruct s;
      try (unfold resume; rewrite E; now apply quietly_same).
    + rewrite (resume_ingesting _ _ _ _ _ _ _ _ _ E).
      apply afterIngestion_quietly; auto.
      now rewrite pending_ingested.
    + unfold resume. rewrite E. now apply set_task_quietly.
  - destruct Hk as (um1 & -> & H1). destruct s;
      try (unfold resume; rewrite E; now apply quietly_same).
    + rewrite (resume_chatResolves _ _ _ _ E).
      apply set_task_quietly; [exact O|]. simpl. eauto.
    + unfold resume. rewrite E. now apply finish_quietly.
  - destruct Hk as (um1 & -> & H1). destruct s;
      try (unfold resume; rewrite E; now apply quietly_same).
    + rewrite (resume_streamYields _ _ _ _ _ _ E). split.
      * pose proof (pendingCount_finalUpdated a (text ++ partText part) um1 H1) as Z.
        repeat split; simpl; try rewrite Z; auto.
        apply Forall_put; [exact Ht|]. simpl. eauto.
      * exists []. simpl. now rewrite app_nil_r.
    + rewrite (resume_streamEnds _ _ _ _ _ E). now apply finish_quietly.
    + unfold resume. rewrite E. now apply finish_quietly.
  - rewrite (resume_returned _ _ _ E). now apply quietly_same.
Qed.

Lemma delete_orderly (id0 : string) (st : State) :
  orderly st -> orderly (handleDeleteMessage id0 st).
Proof.
  intros (A & B & C).
  destruct (delete_filters id0 st) as (M & _).
  pose proof (pendingCount_filter (fun m => negb (id m =? id0)) (messages st)) as F.
  unfold orderly. rewrite M. repeat split.
  - lia.
  - intros L. assert (isLoading st = false) as L'
      by (revert L; unfold handleDeleteMessage, saveToCloud; simpl;
          destruct (puter st); trivial).
    specialize (B L'). lia.
  - unfold handleDeleteMessage, saveToCloud. simpl.
    destruct (puter st); exact C.
Qed.

Lemma newChat_quietly (st : State) : orderly st -> quietly st (handleNewChat st).
Proof.
  intros (A & B & C). unfold handleNewChat, saveToCloud. simpl. split.
  - repeat split; destruct (puter st); simpl; auto.
  - exists [[]]. split; [destruct (puter st); reflexivity|].
    now repeat constructor.
Qed.

(** An event other than Enter and Delete keeps the session orderly and
    saves no pending message. *)
Lemma loadFromCloud_quietly (parsed : option (list Message)) (st : State) :
  orderly st -> settledLoads [cloudLoaded parsed] = true ->
  quietly st (loadFromCloud parsed st).
Proof.
  intros O L. unfold loadFromCloud.
  destruct (puter st); [|now apply quietly_same].
  destruct parsed as [msgs|]; [|now apply quietly_same].
  simpl in L. rewrite andb_true_r in L. apply Nat.eqb_eq in L.
  destruct O as (A & B & C). split.
  - repeat split; simpl; auto. rewrite L. lia.
  - exists []. simpl. now rewrite app_nil_r.
Qed.

Lemma step_quietly (st : State) (e : Event) :
  orderly st -> viaButton [e] = true -> settledLoads [e] = true ->
  isDelete e = false ->
  quietly st (step st e).
Proof.
  intros O V L D. pose proof O as (A & B & C).
  destruct e; try (now apply loadFromCloud_quietly);
    simpl in *; try discriminate.
  - split; [repeat split; auto|]. exists []. simpl. now rewrite app_nil_r.
  - split; [repeat split; auto|]. exists []. simpl. now rewrite app_nil_r.
  - split; [repeat split; auto|]. exists []. simpl. now rewrite app_nil_r.
  - split; [repeat split; auto|]. exists []. simpl. now rewrite app_nil_r.
  - destruct (sendDisabled st) eqn:S; [now apply quietly_same|].
    apply handleSubmit_quietly; [exact O|]. apply B.
    unfold sendDisabled in S. now apply orb_false_iff in S.
  - now apply newChat_quietly.
  - now apply resume_quietly.
Qed.

Lemma step_orderly (st : State) (e : Event) :
  orderly st -> viaButton [e] = true -> settledLoads [e] = true ->
  orderly (step st e).
Proof.
  intros O V L. destruct (isDelete e) eqn:D.
  - destruct e; try discriminate. now apply delete_orderly.
  - now apply step_quietly.
Qed.

Lemma settledLoads_cons (e : Event) (es : list Event) :
  settledLoads (e :: es) = true ->
  settledLoads [e] = true /\ settledLoads es = true.
Proof.
  unfold settledLoads. simpl. rewrite andb_true_r. apply andb_true_iff.
Qed.

Lemma viaButton_cons (e : Event) (es : list Event) :
  viaButton (e :: es) = true -> viaButton [e] = true /\ viaButton es = true.
Proof.
  unfold viaButton. simpl. rewrite andb_true_r. apply andb_true_iff.
Qed.

Lemma run_orderly (es : list Event) :
  forall st, orderly st -> viaButton es = true -> settledLoads es = true ->
             orderly (run st es).
Proof.
  induction es as [|e es IH]; intros st O V L; [exact O|].
  apply viaButton_cons in V as [Ve Ves].
  apply settledLoads_cons in L as [Le Les].
  rewrite run_cons. apply IH; [now apply step_orderly | exact Ves | exact Les].
Qed.

(** What holds of C1: while the form is only submitted with the send
    button, every state the session goes through has at most one
    pending message. *)
Lemma one_pending_via_button (es : list Event) :
  forall st, orderly st -> viaButton es = true -> settledLoads es = true ->
  Forall (fun s => pendingCount (messages s) <= 1) (observed st es).
Proof.
  induction es as [|e es IH]; intros st O V L; simpl.
  - constructor; [apply O | constructor].
  - apply viaButton_cons in V as [Ve Ves].
    apply settledLoads_cons in L as [Le Les].
    constructor; [apply O|].
    apply IH; [now apply step_orderly | exact Ves | exact Les].
Qed.

(** The send button does not submit while [isLoading] is set. *)
Lemma send_button_waits (st : State) (t1 t2 : N) :
  isLoading st = true -> step st (sendClicked t1 t2) = st.
Proof.
  intros L. simpl. unfold sendDisabled. now rewrite L, orb_true_r.
Qed.

(** ** C1, C3: Enter while a response is awaited *)

(** C1, where the code departs from it. The user sends [a] and, before
    any part of the answer has arrived, types [b] and presses Enter:
    the transcript then holds two pending messages.  The counts are
    those of the states the session goes through. *)
Theorem second_enter_leaves_two_pending :
  let es := [typed "a"; enterPressed 1000 1000; typed "b";
             enterPressed 1005 1005] in
  map (fun s => pendingCount (messages s)) (observed (mount "ann" true) es)
  = [0; 0; 1; 1; 2]
  /\ messages (run (mount "ann" true) es)
     = [newUserMessage 1000 "a"; placeholder "1001";
        newUserMessage 1005 "b"; placeholder "1006"].
Proof. vm_compute. split; reflexivity. Qed.

(** C3, where the code departs from it. With the submission of [a] in
    flight and [b] typed, Enter is not rejected: the transcript grows by
    the second user turn and a second placeholder, a second strategy
    call is issued and two calls of [handleSubmit] are in flight.  The
    send button, in the same state, does nothing. *)
Theorem enter_in_flight_is_accepted :
  let st := run (mount "ann" true)
              [typed "a"; enterPressed 1000 1000; typed "b"] in
  let st' := step st (enterPressed 1005 1005) in
  (inFlight st = true /\ isLoading st = true)
  /\ (length (messages st) = 2 /\ length (messages st') = 4)
  /\ (length (chats st) = 1 /\ length (chats st') = 2)
  /\ map (awaitingStrategy st') [0; 1]
     = [Some (messages st, "1001"); Some (messages st', "1006")]
  /\ step st (sendClicked 1005 1005) = st.
Proof. vm_compute. repeat split. Qed.

(** ** C9: what is saved *)












(** * The rest of the component *)

(** ** What [handleSubmit] accepts *)

Lemma put_new (t : Task) (ts : list Task) :
  put (length ts) t ts = (ts ++ [t])%list.
Proof.
  unfold put. rewrite firstn_all, skipn_all2 by (simpl; lia). reflexivity.
Qed.

Lemma put_put_new (t t' : Task) (ts : list Task) :
  put (length ts) t' (ts ++ [t]) = (ts ++ [t'])%list.
Proof.
  unfold put. rewrite firstn_app, firstn_all, Nat.sub_diag.
  rewrite skipn_all2 by (rewrite length_app; simpl; lia).
  simpl. now rewrite app_nil_r.
Qed.

Lemma nothingToSend_iff (st : State) :
  nothingToSend st = true <-> selectedFile st = None /\ blank (input st) = true.
Proof.
  split.
  - unfold nothingToSend, Js.truthy. intros H.
    apply andb_true_iff in H as [Ht Hf].
    destruct (selectedFile st); [discriminate|]. split; [reflexivity|].
    apply blank_trim. apply negb_true_iff, negb_false_iff in Ht.
    now apply String.eqb_eq.
  - intros [Hf Hb]. now apply nothingToSend_blank.
Qed.

(** The tasks after the run from [updatedMessages1] on: task [k] waits
    for the strategy, or has returned when the client is missing. *)
Lemma afterIngestion_tasks (k : nat) (messages0 : list Message)
    (userMessage : Message) (fileDataForApi : option InlineData)
    (extractedText : string) (mode0 : Mode) (t2 : N) (st : State) :
  exists t,
    tasks (afterIngestion k messages0 userMessage fileDataForApi
             extractedText mode0 t2 st)
    = put k t (tasks st).
Proof.
  destruct (puter st) eqn:Hp.
  - destruct (afterIngestion_loaded k messages0 userMessage fileDataForApi
                extractedText mode0 t2 st Hp) as (_ & _ & _ & T & _).
    eexists. exact T.
  - destruct (afterIngestion_unloaded k messages0 userMessage fileDataForApi
                extractedText mode0 t2 st Hp) as (st1 & -> & _ & T1).
    destruct (finish_spec k
                ((messages0 ++ [userMessage])
                 ++ [placeholder (Js.toString (t2 + 1))])
                (Js.toString (t2 + 1)) apology st1) as (_ & _ & _ & _ & _ & T).
    exists Returned. now rewrite T, T1.
Qed.

(** A call that is not turned away takes the next task slot. *)
Lemma handleSubmit_tasks (t1 t2 : N) (st : State) :
  nothingToSend st = false ->
  exists t, tasks (handleSubmit t1 t2 st) = (tasks st ++ [t])%list.
Proof.
  intros H. unfold handleSubmit. rewrite H.
  assert (forall t, tasks (set_task (length (tasks st)) t st)
                    = (tasks st ++ [t])%list) as S
    by (intros t; simpl; apply put_new).
  destruct (selectedFile st) as [f|].
  - destruct (extensionIs f "pdf" || Js.startsWith (file_type f) "image/");
      [eexists; apply S|].
    destruct (extensionIs f "docx"); [eexists; apply S|].
    destruct (extensionIs f "txt"); [eexists; apply S|].
    match goal with
    | |- context [afterIngestion ?k ?m ?u ?fd ?x ?md ?t ?s] =>
        destruct (afterIngestion_tasks k m u fd x md t s) as (T & E)
    end.
    exists T. now rewrite E, put_new.
  - match goal with
    | |- context [afterIngestion ?k ?m ?u ?fd ?x ?md ?t ?s] =>
        destruct (afterIngestion_tasks k m u fd x md t s) as (T & E)
    end.
    exists T. now rewrite E, put_new.
Qed.

(** X1. [handleSubmit] returns the state as it found it exactly when no
    file is selected and the draft is empty or white space; in every
    other case it starts one call, the next task of the session. *)
Theorem handleSubmit_accepts_iff (st : State) (t1 t2 : N) :
  (handleSubmit t1 t2 st = st
   <-> selectedFile st = None /\ blank (input st) = true)
  /\ (handleSubmit t1 t2 st <> st ->
      exists t, tasks (handleSubmit t1 t2 st) = (tasks st ++ [t])%list).
Proof.
  destruct (nothingToSend st) eqn:H.
  - assert (handleSubmit t1 t2 st = st) as E
      by (unfold handleSubmit; now rewrite H).
    split; [|congruence].
    split; intros _; [now apply nothingToSend_iff | exact E].
  - destruct (handleSubmit_tasks t1 t2 st H) as (t & T).
    split; [|now exists t].
    split.
    + intros E. rewrite E in T. apply (f_equal (@length Task)) in T.
      rewrite length_app in T. simpl in T. lia.
    + intros B. apply nothingToSend_iff in B. congruence.
Qed.

(** ** Attachments that are not read, and reads that fail *)

Lemma composePrompt_no_document (content0 : string) :
  composePrompt content0 "" = content0.
Proof. reflexivity. Qed.

(** X2. A file that is neither a [pdf], an image, a [docx] nor a [txt]
    is not read at all: the call goes straight on to the strategy.  The
    user message carries the file's name, type and object URL, the
    prompt is the draft alone and no payload is attached. *)
Theorem other_attachment_not_read (st : State) (f : File) (t1 t2 : N) :
  puter st = true ->
  selectedFile st = Some f ->
  isRead f = false ->
  let st' := step st (enterPressed t1 t2) in
  let userMessage := withFile f (newUserMessage t1 (input st)) in
  messages st'
  = (messages st ++ [userMessage; placeholder (Js.toString (t2 + 1))])%list
  /\ file userMessage
     = Some {| name := file_name f; type := file_type f; url := blob_url f |}
  /\ chats st' = (chats st ++ [strategyCall (mode st) (input st) None])%list
  /\ awaitingStrategy st' (length (tasks st))
     = Some (messages st', Js.toString (t2 + 1)).
Proof.
  intros Hp Hf Hr st' userMessage. unfold isRead in Hr.
  apply orb_false_iff in Hr as [Hr Htxt].
  apply orb_false_iff in Hr as [Hpdf Hdocx].
  assert (st' = afterIngestion (length (tasks st)) (messages st) userMessage
                  None "" (mode st) t2 st) as E.
  { unfold st'. simpl. unfold handleSubmit, nothingToSend.
    now rewrite Hf, andb_false_r, Hpdf, Hdocx, Htxt. }
  destruct (afterIngestion_loaded (length (tasks st)) (messages st) userMessage
              None "" (mode st) t2 st Hp) as (M & _ & C & T & _).
  rewrite <- E in M, C, T.
  split; [now rewrite M, <- app_assoc|]. split; [reflexivity|].
  split; [exact C|].
  unfold awaitingStrategy. rewrite T, nth_error_put by lia. now rewrite M.
Qed.

Lemma other_attachment_not_read_witness :
  let archive := {| file_name := "backup.tar.gz"; file_type := "application/gzip";
                    blob_url := "blob:archive" |} in
  let st := run (mount "ann" true) [typed "Keep this"; fileSelected archive] in
  let st' := step st (enterPressed 1000 1000) in
  (puter st = true /\ selectedFile st = Some archive /\ isRead archive = false)
  /\ messages st'
     = [withFile archive (newUserMessage 1000 "Keep this"); placeholder "1001"]
  /\ chats st' = [strategyCall search "Keep this" None].
Proof.
  intros archive st st'.
  destruct (other_attachment_not_read st archive 1000 1000 eq_refl eq_refl eq_refl)
    as (M & _ & C & _).
  split; [repeat split|]. split; [exact M | exact C].
Defined.

(** A file that is read suspends the call before anything else. *)
Lemma handleSubmit_awaits (st : State) (f : File) (t1 t2 : N) :
  selectedFile st = Some f ->
  isRead f = true ->
  exists what,
    handleSubmit t1 t2 st
    = set_task (length (tasks st))
        (Ingesting (messages st) (withFile f (newUserMessage t1 (input st)))
           f what (mode st)) st.
Proof.
  intros Hf Hr. unfold handleSubmit, nothingToSend, isRead in *.
  rewrite Hf, andb_false_r.
  destruct (extensionIs f "pdf" || Js.startsWith (file_type f) "image/");
    [now eexists|].
  destruct (extensionIs f "docx"); [now eexists|].
  destruct (extensionIs f "txt"); [now eexists | discriminate].
Qed.

(** X3. When the read of the attachment fails, the submission is given
    up before its [try] block: transcript, draft, selected file and
    [isLoading] are what they were, nothing is saved or written and no
    strategy is called; the call has returned. *)
Theorem failed_read_gives_up (st : State) (f : File) (t1 t2 : N) :
  selectedFile st = Some f ->
  isRead f = true ->
  let st' := run st [enterPressed t1 t2;
                     settled (length (tasks st)) ingestRejects] in
  messages st' = messages st
  /\ (input st' = input st /\ selectedFile st' = Some f)
  /\ isLoading st' = isLoading st
  /\ (saved st' = saved st /\ written st' = written st)
  /\ chats st' = chats st
  /\ tasks st' = (tasks st ++ [Returned])%list.
Proof.
  intros Hf Hr st'.
  destruct (handleSubmit_awaits st f t1 t2 Hf Hr) as (what & E).
  assert (st' = set_task (length (tasks st)) Returned
                  (set_task (length (tasks st))
                     (Ingesting (messages st)
                        (withFile f (newUserMessage t1 (input st))) f what
                        (mode st)) st)) as ->.
  { unfold st', run. simpl. rewrite E. unfold resume.
    now rewrite nth_error_new_task. }
  simpl. rewrite put_new, put_put_new. repeat split; auto.
Qed.

Lemma failed_read_gives_up_witness :
  let report := {| file_name := "report.docx"; file_type := "";
                   blob_url := "blob:report" |} in
  let st := run (mount "ann" true) [typed "Summarize"; fileSelected report] in
  let st' := run st [enterPressed 1000 1000; settled 0 ingestRejects] in
  (selectedFile st = Some report /\ isRead report = true)
  /\ messages st' = []
  /\ input st' = "Summarize"
  /\ selectedFile st' = Some report
  /\ chats st' = [].
Proof.
  intros report st st'.
  destruct (failed_read_gives_up st report 1000 1000 eq_refl eq_refl)
    as (M & (I & F) & _ & _ & C & _).
  split; [split; reflexivity|].
  split; [exact M|]. split; [exact I|]. split; [exact F | exact C].
Defined.

(** ** Without the client *)

Lemma afterIngestion_without_client (k : nat) (messages0 : list Message)
    (userMessage : Message) (fileDataForApi : option InlineData)
    (extractedText : string) (mode0 : Mode) (t2 : N) (st : State) :
  puter st = false ->
  let st' := afterIngestion k messages0 userMessage fileDataForApi
               extractedText mode0 t2 st in
  let a := Js.toString (t2 + 1) in
  let finalUpdated :=
    map (withContent a apology) ((messages0 ++ [userMessage]) ++ [placeholder a]) in
  messages st' = finalUpdated
  /\ saved st' = (saved st ++ [messages0 ++ [userMessage]; finalUpdated])%list
  /\ written st' = written st
  /\ chats st' = chats st
  /\ (input st' = "" /\ selectedFile st' = None)
  /\ isLoading st' = false
  /\ tasks st' = put k Returned (tasks st).
Proof.
  intros Hp. unfold afterIngestion, finish, saveToCloud. simpl.
  rewrite Hp. simpl. rewrite Hp. simpl.
  repeat split. now rewrite <- app_assoc.
Qed.

(** X4. With [window.puter] not set, a submission without attachment
    ends in the run that started it: the transcript gets the user turn
    and the assistant message with the apology, no strategy is called,
    [saveToCloud] is called for the user turn and for the final
    transcript but nothing is written, the draft is cleared and
    [isLoading] is off again. *)
Theorem submit_without_client (st : State) (t1 t2 : N) :
  puter st = false ->
  selectedFile st = None ->
  blank (input st) = false ->
  let st' := step st (enterPressed t1 t2) in
  let a := Js.toString (t2 + 1) in
  let updatedMessages1 := (messages st ++ [newUserMessage t1 (input st)])%list in
  messages st'
  = (map (withContent a apology) updatedMessages1 ++ [answered a apology])%list
  /\ chats st' = chats st
  /\ saved st' = (saved st ++ [updatedMessages1; messages st'])%list
  /\ written st' = written st
  /\ input st' = ""
  /\ isLoading st' = false
  /\ tasks st' = (tasks st ++ [Returned])%list.
Proof.
  intros Hp Hf Hb st' a updatedMessages1.
  assert (nothingToSend st = false) as N.
  { destruct (nothingToSend st) eqn:N; [|reflexivity].
    apply nothingToSend_iff in N as [_ B]. congruence. }
  assert (st' = afterIngestion (length (tasks st)) (messages st)
                  (newUserMessage t1 (input st)) None "" (mode st) t2 st) as E.
  { unfold st'. simpl. unfold handleSubmit. now rewrite N, Hf. }
  destruct (afterIngestion_without_client (length (tasks st)) (messages st)
              (newUserMessage t1 (input st)) None "" (mode st) t2 st Hp)
    as (M & S & W & C & (I & _) & L & T).
  rewrite <- E in M, S, W, C, I, L, T.
  fold a updatedMessages1 in M, S.
  rewrite map_withContent_placeholder in M, S.
  rewrite put_new in T. rewrite M. repeat split; auto.
Qed.

Lemma submit_without_client_witness :
  let st := run (mount "ann" false) [typed "Hello"] in
  let st' := step st (enterPressed 1000 1000) in
  (puter st = false /\ selectedFile st = None /\ blank (input st) = false)
  /\ messages st' = [newUserMessage 1000 "Hello"; answered "1001" apology]
  /\ chats st' = []
  /\ written st' = [].
Proof.
  intros st st'.
  destruct (submit_without_client st 1000 1000 eq_refl eq_refl eq_refl)
    as (M & C & _ & W & _).
  split; [repeat split|]. split; [exact M|]. split; [exact C | exact W].
Defined.

(** ** A resumed call writes back what it captured *)

Lemma nth_error_put_other (k k' : nat) (t x : Task) (ts : list Task) :
  nth_error ts k = Some x -> k <> k' -> nth_error (put k' t ts) k = Some x.
Proof.
  unfold put. revert k ts.
  induction k' as [|k' IH]; intros k ts H Hne.
  - destruct k as [|k]; [congruence|].
    destruct ts as [|y ts]; [discriminate|]. exact H.
  - destruct ts as [|y ts]; [now destruct k|].
    destruct k as [|k]; [exact H|].
    simpl. apply IH; [exact H | congruence].
Qed.

Lemma nth_error_snoc (k : nat) (t x : Task) (ts : list Task) :
  nth_error ts k = Some x -> nth_error (ts ++ [t]) k = Some x.
Proof.
  intros H. rewrite nth_error_app1; [exact H|].
  apply nth_error_Some. congruence.
Qed.

(** Settling task [k'] changes no other task. *)
Lemma resume_tasks (k' : nat) (s : Settlement) (st : State) :
  tasks (resume k' s st) = tasks st
  \/ exists t, tasks (resume k' s st) = put k' t (tasks st).
Proof.
  destruct (nth_error (tasks st) k') as [t|] eqn:E;
    [|left; unfold resume; now rewrite E].
  assert (forall um2 a text,
            exists t0, tasks (finish k' um2 a text st) = put k' t0 (tasks st)) as F.
  { intros um2 a text. exists Returned.
    now destruct (finish_spec k' um2 a text st) as (_ & _ & _ & _ & _ & T). }
  destruct t as [m0 um f what md | um2 a | um2 a text |].
  - destruct s; try (left; unfold resume; now rewrite E).
    + right. rewrite (resume_ingesting _ _ _ _ _ _ _ _ _ E).
      apply afterIngestion_tasks.
    + right. unfold resume. rewrite E. now eexists.
  - destruct s; try (left; unfold resume; now rewrite E).
    + right. rewrite (resume_chatResolves _ _ _ _ E). now eexists.
    + right. unfold resume. rewrite E. apply F.
  - destruct s; try (left; unfold resume; now rewrite E).
    + right. rewrite (resume_streamYields _ _ _ _ _ _ E). now eexists.
    + right. rewrite (resume_streamEnds _ _ _ _ _ E). apply F.
    + right. unfold resume. rewrite E. apply F.
  - left. now rewrite (resume_returned _ _ _ E).
Qed.

Lemma step_keeps_task (k : nat) (t : Task) (st : State) (e : Event) :
  nth_error (tasks st) k = Some t ->
  settlesTask k e = false ->
  nth_error (tasks (step st e)) k = Some t.
Proof.
  intros H Hs.
  assert (forall t1 t2, nth_error (tasks (handleSubmit t1 t2 st)) k = Some t) as S.
  { intros t1 t2. destruct (nothingToSend st) eqn:N.
    - unfold handleSubmit. now rewrite N.
    - destruct (handleSubmit_tasks t1 t2 st N) as (t' & ->).
      now apply nth_error_snoc. }
  destruct e; simpl; try exact H; try apply S.
  - destruct (sendDisabled st); [exact H | apply S].
  - unfold handleDeleteMessage, saveToCloud. simpl.
    now destruct (puter st).
  - unfold handleNewChat, saveToCloud. simpl. now destruct (puter st).
  - simpl in Hs. apply Nat.eqb_neq in Hs.
    destruct (resume_tasks k0 s st) as [->|(t' & ->)]; [exact H|].
    apply nth_error_put_other; [exact H | congruence].
  - unfold loadFromCloud. destruct (puter st); [|exact H].
    now destruct parsed.
Qed.

Lemma run_keeps_task (k : nat) (t : Task) (es : list Event) :
  forall st,
    nth_error (tasks st) k = Some t ->
    elsewhere k es = true ->
    nth_error (tasks (run st es)) k = Some t.
Proof.
  induction es as [|e es IH]; intros st H Hs; [exact H|].
  simpl in Hs. apply andb_true_iff in Hs as [He Hes].
  rewrite run_cons. apply IH; [|exact Hes].
  apply step_keeps_task; [exact H|]. now apply negb_true_iff.
Qed.

(** X5. A call that is in its stream keeps the transcript it captured
    when it was submitted.  Whatever is done meanwhile (messages
    deleted, New Chat, other submissions), the next part puts that
    transcript back with the text so far in the assistant message, and
    the end of the stream or a failure puts it back and hands it to
    [saveToCloud]. *)
Theorem resumed_call_restores_captured
    (st : State) (k : nat) (updatedMessages2 : list Message) (a text : string)
    (es : list Event) :
  nth_error (tasks st) k = Some (Streaming updatedMessages2 a text) ->
  elsewhere k es = true ->
  (forall part,
     messages (run st (es ++ [settled k (streamYields part)]))
     = map (withContent a (text ++ partText part)) updatedMessages2)
  /\ (let st' := run st (es ++ [settled k streamEnds]) in
      messages st' = map (withContent a text) updatedMessages2
      /\ saved st' = (saved (run st es) ++ [messages st'])%list)
  /\ (let st' := run st (es ++ [settled k strategyFails]) in
      messages st' = map (withContent a apology) updatedMessages2
      /\ saved st' = (saved (run st es) ++ [messages st'])%list).
Proof.
  intros H Hs. pose proof (run_keeps_task k _ es st H Hs) as T.
  split; [|split].
  - intros part. rewrite run_snoc.
    change (step ?s (settled k ?x)) with (resume k x s).
    now rewrite (resume_streamYields _ _ _ _ _ _ T).
  - cbv zeta. rewrite run_snoc.
    change (step ?s (settled k ?x)) with (resume k x s).
    rewrite (resume_streamEnds _ _ _ _ _ T).
    destruct (finish_spec k updatedMessages2 a text (run st es)) as (M & S & _).
    now rewrite M, S.
  - cbv zeta. rewrite run_snoc.
    change (step ?s (settled k ?x)) with (resume k x s).
    unfold resume. rewrite T.
    destruct (finish_spec k updatedMessages2 a apology (run st es)) as (M & S & _).
    now rewrite M, S.
Qed.

Lemma resumed_call_restores_captured_witness :
  let hello := newUserMessage 1000 "Hello" in
  let st := run (mount "ann" true)
              [typed "Hello"; sendClicked 1000 1000; settled 0 chatResolves;
               settled 0 (streamYields (Some "Hi"))] in
  let es := [deleteClicked "1000"; newChatClicked] in
  (nth_error (tasks st) 0
   = Some (Streaming [hello; placeholder "1001"] "1001" "Hi")
   /\ elsewhere 0 es = true)
  /\ messages (run st es) = []
  /\ messages (run st (es ++ [settled 0 (streamYields (Some " there"))]))
     = [hello; answered "1001" "Hi there"].
Proof.
  intros hello st es.
  destruct (resumed_call_restores_captured st 0 [hello; placeholder "1001"]
              "1001" "Hi" es eq_refl eq_refl) as (Y & _).
  split; [split; reflexivity|]. split; [reflexivity|].
  exact (Y (Some " there")).
Defined.

(** ** Invariants of a session *)

(** X6. In a session of the chat (typing, files, mode, the send button,
    deletions, New Chat, settlements, the transcript loaded from the
    store) in which the form is never submitted with Enter and no
    loaded transcript holds a pending message, the transcript has at
    most one pending message in every state it goes through.  Voice
    input is not among these events: see X20. *)
Theorem at_most_one_pending_via_button
    (email : string) (puterLoaded : bool) (es : list Event) :
  viaButton es = true ->
  settledLoads es = true ->
  Forall (fun s => pendingCount (messages s) <= 1)
    (observed (mount email puterLoaded) es).
Proof.
  intros V L.
  apply one_pending_via_button; [apply mount_orderly | exact V | exact L].
Qed.

Lemma at_most_one_pending_via_button_witness :
  let es := [typed "a"; sendClicked 1000 1000;
             cloudLoaded (Some [newUserMessage 10 "Old"; answered "11" "Older"]);
             typed "b"; sendClicked 1005 1005; deleteClicked "1000";
             settled 0 chatResolves; settled 0 (streamYields (Some "A"));
             settled 0 streamEnds; sendClicked 1010 1010] in
  (viaButton es = true /\ settledLoads es = true)
  /\ Forall (fun s => pendingCount (messages s) <= 1)
       (observed (mount "ann" true) es).
Proof.
  intros es. split; [split; reflexivity|].
  exact (at_most_one_pending_via_button "ann" true es eq_refl eq_refl).
Defined.

Lemma promptOnly_strategyCall (mode0 : Mode) (prompt : string)
    (fileDataForApi : option InlineData) :
  promptOnly (strategyCall mode0 prompt fileDataForApi).
Proof. now destruct mode0. Qed.

Lemma afterIngestion_chats (k : nat) (messages0 : list Message)
    (userMessage : Message) (fileDataForApi : option InlineData)
    (extractedText : string) (mode0 : Mode) (t2 : N) (st : State) :
  exists calls,
    chats (afterIngestion k messages0 userMessage fileDataForApi
             extractedText mode0 t2 st)
    = (chats st ++ calls)%list
    /\ Forall promptOnly calls.
Proof.
  destruct (puter st) eqn:Hp.
  - destruct (afterIngestion_loaded k messages0 userMessage fileDataForApi
                extractedText mode0 t2 st Hp) as (_ & _ & C & _).
    eexists. split; [exact C|].
    constructor; [apply promptOnly_strategyCall | constructor].
  - destruct (afterIngestion_without_client k messages0 userMessage
                fileDataForApi extractedText mode0 t2 st Hp)
      as (_ & _ & _ & C & _).
    exists []. now rewrite app_nil_r.
Qed.

Lemma step_chats (st : State) (e : Event) :
  exists calls,
    chats (step st e) = (chats st ++ calls)%list /\ Forall promptOnly calls.
Proof.
  assert (exists calls : list StrategyCall,
            chats st = (chats st ++ calls)%list /\ Forall promptOnly calls) as Z
    by (exists []; now rewrite app_nil_r).
  assert (forall t1 t2,
            exists calls,
              chats (handleSubmit t1 t2 st) = (chats st ++ calls)%list
              /\ Forall promptOnly calls) as S.
  { intros t1 t2. unfold handleSubmit.
    destruct (nothingToSend st); [exact Z|].
    destruct (selectedFile st) as [f|]; [|apply afterIngestion_chats].
    destruct (extensionIs f "pdf" || Js.startsWith (file_type f) "image/");
      [exact Z|].
    destruct (extensionIs f "docx"); [exact Z|].
    destruct (extensionIs f "txt"); [exact Z|].
    apply afterIngestion_chats. }
  destruct e; simpl; try exact Z; try apply S.
  - destruct (sendDisabled st); [exact Z | apply S].
  - unfold handleDeleteMessage, saveToCloud. simpl.
    now destruct (puter st).
  - unfold handleNewChat, saveToCloud. simpl. now destruct (puter st).
  - assert (forall um2 a text,
              exists calls,
                chats (finish k um2 a text st) = (chats st ++ calls)%list
                /\ Forall promptOnly calls) as F.
    { intros um2 a text.
      destruct (finish_spec k um2 a text st) as (_ & _ & _ & _ & C & _).
      now rewrite C. }
    unfold resume.
    destruct (nth_error (tasks st) k)
      as [[m0 um f what md | um2 a | um2 a text |]|];
      destruct s; try exact Z; try apply F.
    destruct (ingested what f value um) as [[? ?] ?].
    apply afterIngestion_chats.
  - unfold loadFromCloud. destruct (puter st); [|exact Z].
    destruct parsed; exact Z.
Qed.

(** X7. Whatever happens in a session, every strategy call it issues is
    [puter.ai.chat] with [stream: true] and the prompt alone: no call
    carries an attachment to the model and [generateChatResponse] is
    never called. *)
Theorem every_call_is_prompt_only (st : State) (es : list Event) :
  exists calls,
    chats (run st es) = (chats st ++ calls)%list /\ Forall promptOnly calls.
Proof.
  revert st. induction es as [|e es IH]; intros st.
  - exists []. now rewrite app_nil_r.
  - rewrite run_cons.
    destruct (step_chats st e) as (c1 & E1 & F1).
    destruct (IH (step st e)) as (c2 & E2 & F2).
    exists (c1 ++ c2)%list. split.
    + now rewrite E2, E1, app_assoc.
    + apply Forall_app. now split.
Qed.

Lemma persisted_same (st st' : State) :
  saved st' = saved st -> written st' = written st ->
  puter st' = puter st -> userEmail st' = userEmail st ->
  persisted st st' [].
Proof.
  intros S W P U. unfold persisted. rewrite S, W, P, U.
  destruct (puter st); simpl; now rewrite !app_nil_r.
Qed.

Lemma persisted_trans (a b c : State) (s1 s2 : list (list Message)) :
  persisted a b s1 -> persisted b c s2 -> persisted a c (s1 ++ s2).
Proof.
  intros (S1 & W1 & P1 & U1) (S2 & W2 & P2 & U2). unfold persisted.
  rewrite S2, S1, W2, W1, P2, P1, U2, U1.
  destruct (puter a); rewrite ?map_app, ?app_nil_r, ?app_assoc; auto.
Qed.

Lemma finish_persisted (k : nat) (um2 : list Message) (a text : string)
    (st : State) :
  persisted st (finish k um2 a text st) [map (withContent a text) um2].
Proof.
  unfold persisted, finish, saveToCloud. simpl.
  destruct (puter st) eqn:Hp; simpl; rewrite ?Hp, ?app_nil_r; repeat split.
Qed.

Lemma afterIngestion_persisted (k : nat) (messages0 : list Message)
    (userMessage : Message) (fileDataForApi : option InlineData)
    (extractedText : string) (mode0 : Mode) (t2 : N) (st : State) :
  exists snapshots,
    persisted st
      (afterIngestion k messages0 userMessage fileDataForApi extractedText
         mode0 t2 st) snapshots.
Proof.
  destruct (puter st) eqn:Hp.
  - exists [(messages0 ++ [userMessage])%list].
    unfold persisted, afterIngestion, saveToCloud. simpl.
    rewrite Hp. simpl. rewrite Hp. simpl. rewrite ?Hp, ?app_nil_r. repeat split.
  - exists [(messages0 ++ [userMessage])%list;
            map (withContent (Js.toString (t2 + 1)) apology)
              ((messages0 ++ [userMessage])
               ++ [placeholder (Js.toString (t2 + 1))])].
    unfold persisted, afterIngestion, finish, saveToCloud. simpl.
    rewrite Hp. simpl. rewrite Hp. simpl. rewrite ?Hp.
    rewrite <- !app_assoc. simpl. rewrite ?app_nil_r. repeat split.
Qed.

Lemma step_persisted (st : State) (e : Event) :
  exists snapshots, persisted st (step st e) snapshots.
Proof.
  assert (exists snapshots, persisted st st snapshots) as Z
    by (exists []; now apply persisted_same).
  assert (forall t, exists snapshots,
            persisted st (set_task (length (tasks st)) t st) snapshots) as T
    by (intros t; exists []; now apply persisted_same).
  assert (forall t1 t2, exists snapshots,
            persisted st (handleSubmit t1 t2 st) snapshots) as S.
  { intros t1 t2. unfold handleSubmit.
    destruct (nothingToSend st); [exact Z|].
    destruct (selectedFile st) as [f|]; [|apply afterIngestion_persisted].
    destruct (extensionIs f "pdf" || Js.startsWith (file_type f) "image/");
      [apply T|].
    destruct (extensionIs f "docx"); [apply T|].
    destruct (extensionIs f "txt"); [apply T|].
    apply afterIngestion_persisted. }
  destruct e; simpl; try apply S;
    try (exists []; now apply persisted_same).
  - destruct (sendDisabled st); [exact Z | apply S].
  - exists [filter (fun m => negb (id m =? id0)) (messages st)].
    unfold persisted, handleDeleteMessage, saveToCloud. simpl.
    destruct (puter st) eqn:Hp; simpl; rewrite ?Hp, ?app_nil_r; repeat split.
  - exists [[]]. unfold persisted, handleNewChat, saveToCloud. simpl.
    destruct (puter st) eqn:Hp; simpl; rewrite ?Hp, ?app_nil_r; repeat split.
  - unfold resume.
    destruct (nth_error (tasks st) k)
      as [[m0 um f what md | um2 a | um2 a text |]|];
      destruct s; try exact Z;
      try (exists []; now apply persisted_same);
      try (eexists; apply finish_persisted).
    destruct (ingested what f value um) as [[? ?] ?].
    apply afterIngestion_persisted.
  - unfold loadFromCloud. destruct (puter st); [|exact Z].
    destruct parsed; [|exact Z]. exists []. now apply persisted_same.
Qed.

Lemma run_persisted (es : list Event) :
  forall st, exists snapshots, persisted st (run st es) snapshots.
Proof.
  induction es as [|e es IH]; intros st.
  - exists []. now apply persisted_same.
  - rewrite run_cons.
    destruct (step_persisted st e) as (s1 & P1).
    destruct (IH (step st e)) as (s2 & P2).
    exists (s1 ++ s2)%list. now apply persisted_trans with (step st e).
Qed.

(** X8. At every point of a session the writes issued to the store are,
    with the client loaded, exactly the transcripts handed to
    [saveToCloud], in the same order and each under the key
    [global_ai_chats_<userEmail>.json] of the signed-in user; without the
    client nothing is ever written. *)
Theorem writes_mirror_saves (email : string) (puterLoaded : bool)
    (es : list Event) :
  let st := run (mount email puterLoaded) es in
  written st
  = (if puterLoaded
     then map (fun msgs => ("global_ai_chats_" ++ email ++ ".json", msgs))
            (saved st)
     else []).
Proof.
  destruct (run_persisted es (mount email puterLoaded))
    as (snapshots & S & W & _).
  cbv zeta. rewrite W, S. simpl. now destruct puterLoaded.
Qed.

(** ** A whole exchange *)

Lemma toString_inj (n m : N) : Js.toString n = Js.toString m -> n = m.
Proof.
  unfold Js.toString. intros H.
  apply (f_equal NilEmpty.uint_of_string) in H.
  rewrite !NilEmpty.usu in H. injection H as H.
  apply (f_equal N.of_uint) in H. now rewrite !Unsigned.of_to in H.
Qed.

Lemma map_withContent_others (a text : string) (l : list Message) :
  forallb (fun m => negb (id m =? a)) l = true ->
  map (withContent a text) l = l.
Proof.
  induction l as [|m l IH]; simpl; intros H; [reflexivity|].
  apply andb_true_iff in H as [Hm Hl]. rewrite (IH Hl). f_equal.
  unfold withContent. apply negb_true_iff in Hm. now rewrite Hm.
Qed.

(** X9. A submission without attachment that runs to the end of its
    stream undisturbed adds exactly two messages to the transcript: the
    user turn with the draft as typed, then the assistant turn with the
    concatenation of the parts and [isThinking = false].  The clock not
    running backwards between the two readings, the two ids differ;
    the transcript before it is unchanged when none of its ids is the
    new assistant id.  [saveToCloud] is called twice, after the user
    turn and at the end, and [isLoading] is off again. *)
Theorem exchange_appends_two_messages
    (st : State) (t1 t2 : N) (parts : list (option string)) :
  puter st = true ->
  selectedFile st = None ->
  blank (input st) = false ->
  (t1 <= t2)%N ->
  forallb (fun m => negb (id m =? Js.toString (t2 + 1))) (messages st) = true ->
  let k := length (tasks st) in
  let userMessage := newUserMessage t1 (input st) in
  let st' := run st (enterPressed t1 t2 :: settled k chatResolves
                     :: yields k parts ++ [settled k streamEnds]) in
  id userMessage <> Js.toString (t2 + 1)
  /\ messages st'
     = (messages st
        ++ [userMessage; answered (Js.toString (t2 + 1)) (concatenation parts)])%list
  /\ saved st' = (saved st ++ [messages st ++ [userMessage]; messages st'])%list
  /\ isLoading st' = false.
Proof.
  intros Hp Hf Hb Ht Hids k userMessage st'.
  assert (id userMessage <> Js.toString (t2 + 1)) as Hid.
  { simpl. intros E. apply toString_inj in E. lia. }
  assert (nothingToSend st = false) as N.
  { destruct (nothingToSend st) eqn:N; [|reflexivity].
    apply nothingToSend_iff in N as [_ B]. congruence. }
  set (a := Js.toString (t2 + 1)) in *.
  set (um1 := (messages st ++ [userMessage])%list).
  assert (step st (enterPressed t1 t2)
          = afterIngestion k (messages st) userMessage None "" (mode st) t2 st)
    as E1 by (simpl; unfold handleSubmit; now rewrite N, Hf).
  destruct (afterIngestion_loaded k (messages st) userMessage None ""
              (mode st) t2 st Hp) as (_ & S1 & _ & T1 & _).
  rewrite <- E1 in S1, T1. fold a um1 in S1, T1.
  assert (nth_error (tasks (step st (enterPressed t1 t2))) k
          = Some (AwaitingChat (um1 ++ [placeholder a]) a)) as A
    by (rewrite T1; apply nth_error_put; unfold k; lia).
  set (st1 := step st (enterPressed t1 t2)) in *.
  assert (nth_error (tasks (step st1 (settled k chatResolves))) k
          = Some (Streaming (um1 ++ [placeholder a]) a "")) as B.
  { simpl. rewrite (resume_chatResolves _ _ _ _ A).
    apply (nth_error_task _ _ _ _ A). }
  assert (saved (step st1 (settled k chatResolves)) = saved st1) as S2
    by (simpl; now rewrite (resume_chatResolves _ _ _ _ A)).
  set (st2 := step st1 (settled k chatResolves)) in *.
  destruct (stream_folds k _ a parts st2 "" B) as (T3 & _ & S3 & _).
  simpl append in T3.
  assert (st' = finish k (um1 ++ [placeholder a]) a (concatenation parts)
                  (run st2 (yields k parts))) as ->.
  { unfold st'. rewrite !app_comm_cons, run_snoc, !run_cons.
    fold st1. fold st2.
    change (step ?s (settled k streamEnds)) with (resume k streamEnds s).
    apply (resume_streamEnds _ _ _ _ _ T3). }
  destruct (finish_spec k (um1 ++ [placeholder a]) a (concatenation parts)
              (run st2 (yields k parts))) as (M & S & _ & L & _).
  rewrite map_withContent_placeholder in M, S.
  assert (map (withContent a (concatenation parts)) um1 = um1) as U.
  { apply map_withContent_others. unfold um1. rewrite forallb_app, Hids.
    cbn [forallb andb]. apply String.eqb_neq in Hid. now rewrite Hid. }
  rewrite U in M, S.
  split; [exact Hid|]. rewrite M.
  split; [unfold um1; now rewrite <- app_assoc|].
  split; [|exact L].
  rewrite S, S3, S2, S1. now rewrite <- app_assoc.
Qed.

Lemma exchange_appends_two_messages_witness :
  let st := run (mount "ann" true) [typed "Hello"] in
  let st' := run st (enterPressed 1000 1000 :: settled 0 chatResolves
                     :: yields 0 [Some "Hi"; Some " there"]
                     ++ [settled 0 streamEnds]) in
  (puter st = true /\ selectedFile st = None /\ blank (input st) = false
   /\ (1000 <= 1000)%N)
  /\ messages st' = [newUserMessage 1000 "Hello"; answered "1001" "Hi there"]
  /\ isLoading st' = false.
Proof.
  intros st st'.
  destruct (exchange_appends_two_messages st 1000 1000 [Some "Hi"; Some " there"]
              eq_refl eq_refl eq_refl (N.le_refl _) eq_refl)
    as (_ & M & _ & L).
  split; [repeat split; apply N.le_refl|]. split; [exact M | exact L].
Defined.

(** ** The dispatch on the file *)

Lemma split_lacks (sep : ascii) (s : string) :
  lacks sep s = true -> Js.split sep s = [s].
Proof.
  induction s as [|c s IH]; simpl; intros H; [reflexivity|].
  apply andb_true_iff in H as [Hc Hs]. apply negb_true_iff in Hc.
  now rewrite Hc, (IH Hs).
Qed.

Lemma split_app_sep (sep : ascii) (b e : string) :
  Js.split sep (b ++ String sep e) = (Js.split sep b ++ Js.split sep e)%list.
Proof.
  induction b as [|c b IH]; simpl.
  - now rewrite Ascii.eqb_refl.
  - destruct (Ascii.eqb c sep); [now rewrite IH|].
    rewrite IH. destruct (split_cons sep b) as (piece & rest & ->).
    reflexivity.
Qed.

Lemma last_app_singleton (l : list string) (x d : string) :
  last (l ++ [x]) d = x.
Proof. apply last_last. Qed.

Lemma pop_split_last (sep : ascii) (b e : string) :
  lacks sep e = true ->
  Js.pop (Js.split sep (b ++ String sep e)) = Some e.
Proof.
  intros H. rewrite split_app_sep, (split_lacks _ _ H).
  unfold Js.pop. rewrite last_last.
  now destruct (Js.split sep b).
Qed.

(** X10. The extension the dispatch looks at is what follows the last
    dot of the file name, in lower case, so that [Report.DOCX] and
    [a.b.Pdf] are a [docx] and a [pdf]. *)
Theorem extension_is_last_segment (f : File) (base e : string) :
  file_name f = base ++ String "." e ->
  lacks "." e = true ->
  extension f = Some (Js.toLowerCase e).
Proof.
  intros Hn He. unfold extension. now rewrite Hn, (pop_split_last _ _ _ He).
Qed.

Lemma extension_is_last_segment_witness :
  let f := {| file_name := "Annual.Report.DOCX"; file_type := "";
              blob_url := "blob:1" |} in
  (file_name f = "Annual.Report" ++ String "." "DOCX" /\ lacks "." "DOCX" = true)
  /\ extension f = Some "docx".
Proof.
  intros f. split; [split; reflexivity|].
  exact (extension_is_last_segment f "Annual.Report" "DOCX" eq_refl eq_refl).
Defined.

(** X11. A file name without any dot is its own extension: a file
    called [pdf], [TXT] or [Docx] is dispatched as one. *)
Theorem undotted_name_is_extension (f : File) :
  lacks "." (file_name f) = true ->
  extension f = Some (Js.toLowerCase (file_name f)).
Proof.
  intros H. unfold extension. now rewrite (split_lacks _ _ H).
Qed.

Lemma undotted_name_is_extension_witness :
  let f := {| file_name := "TXT"; file_type := ""; blob_url := "blob:1" |} in
  lacks "." (file_name f) = true
  /\ extension f = Some "txt" /\ extensionIs f "txt" = true.
Proof.
  intros f. split; [reflexivity|].
  pose proof (undotted_name_is_extension f eq_refl) as E.
  split; [exact E|]. unfold extensionIs. now rewrite E.
Defined.

(** X12. The MIME type is tested before the text extensions: a file
    whose type starts with [image/] is read as a data URL whatever its
    name, be it [notes.txt] or [scan.docx].  What was read becomes the
    attachment's [url] and the payload; the prompt is the draft alone,
    with no [Document Content] part. *)
Theorem image_type_wins
    (st : State) (f : File) (t1 t2 t3 : N) (base64Url : string) :
  puter st = true ->
  selectedFile st = Some f ->
  Js.startsWith (file_type f) "image/" = true ->
  let st' := run st [enterPressed t1 t2;
                     settled (length (tasks st)) (ingestResolves base64Url t3)] in
  let userMessage := withUrl base64Url (withFile f (newUserMessage t1 (input st))) in
  messages st'
  = (messages st ++ [userMessage; placeholder (Js.toString (t3 + 1))])%list
  /\ file userMessage
     = Some {| name := file_name f; type := file_type f; url := base64Url |}
  /\ exists call,
       chats st' = (chats st ++ [call])%list /\ promptOf call = input st.
Proof.
  intros Hp Hf Hi st' userMessage.
  assert (extensionIs f "pdf" || Js.startsWith (file_type f) "image/" = true)
    as Hk by (rewrite Hi; apply orb_true_r).
  unfold st', run. simpl fold_left.
  rewrite (handleSubmit_inline st f t1 t2 Hf Hk).
  rewrite (resume_ingesting _ _ _ _ _ _ _ _ _ (nth_error_new_task _ st)).
  simpl fst. simpl snd.
  match goal with
  | |- context [afterIngestion ?k ?m ?u ?fd ?x ?md ?t ?s] =>
      destruct (afterIngestion_loaded k m u fd x md t s Hp)
        as (M & _ & C & _)
  end.
  rewrite M, C, <- app_assoc. split; [reflexivity|]. split; [reflexivity|].
  eexists. split; [reflexivity|]. now rewrite promptOf_strategyCall.
Qed.

Lemma image_type_wins_witness :
  let f := {| file_name := "notes.txt"; file_type := "image/png";
              blob_url := "blob:1" |} in
  let st := run (mount "ann" true) [typed "Read this"; fileSelected f] in
  let st' := run st [enterPressed 1000 1000;
                     settled 0 (ingestResolves "data:image/png;base64,AAAA" 1002)] in
  (puter st = true /\ selectedFile st = Some f
   /\ Js.startsWith (file_type f) "image/" = true /\ extensionIs f "txt" = true)
  /\ exists call, chats st' = (chats st ++ [call])%list
                  /\ promptOf call = "Read this".
Proof.
  intros f st st'.
  destruct (image_type_wins st f 1000 1000 1002 "data:image/png;base64,AAAA"
              eq_refl eq_refl eq_refl) as (_ & _ & C).
  split; [repeat split|]. exact C.
Defined.

(** ** The attachment's label *)

(** X13. The type label shown under an attachment's name is never
    empty.  For a MIME type [major/minor] it is [minor], and it is
    [FILE] when the type has no slash or nothing after it. *)
Theorem fileLabel_never_empty (a : Attachment) :
  fileLabel a <> ""
  /\ (lacks "/" (type a) = true -> fileLabel a = "FILE")
  /\ (forall major minor,
        type a = major ++ String "/" minor ->
        lacks "/" major = true -> lacks "/" minor = true ->
        fileLabel a = if minor =? "" then "FILE" else minor).
Proof.
  unfold fileLabel. split; [|split].
  - destruct (nth_error (Js.split "/" (type a)) 1) as [x|]; [|discriminate].
    unfold Js.truthy. destruct (String.eqb_spec x ""); simpl;
      [discriminate | assumption].
  - intros H. now rewrite (split_lacks _ _ H).
  - intros major minor E Hj Hn.
    rewrite E, split_app_sep, (split_lacks _ _ Hj), (split_lacks _ _ Hn).
    simpl. unfold Js.truthy. now destruct (minor =? "").
Qed.

Lemma fileLabel_never_empty_witness :
  let a := {| name := "notes"; type := "text"; url := "blob:1" |} in
  let b := {| name := "photo.png"; type := "image/png"; url := "blob:2" |} in
  (lacks "/" (type a) = true /\ fileLabel a = "FILE")
  /\ (type b = "image" ++ String "/" "png" /\ fileLabel b = "png").
Proof.
  intros a b. split; (split; [reflexivity|]).
  - exact (proj1 (proj2 (fileLabel_never_empty a)) eq_refl).
  - exact (proj2 (proj2 (fileLabel_never_empty b)) "image" "png"
             eq_refl eq_refl eq_refl).
Defined.

(** ** [generateChatResponse] *)

(** X14. Which capabilities a request of [generateChatResponse] asks
    for.  Google search is on exactly when there is no file and neither
    flag is set; high thinking exactly when there is no file and
    [useThinking] is set; the light model is chosen exactly when there
    is no file, [useThinking] is off and [useFast] is on.  A file
    therefore overrides both flags, and search and thinking are never
    on together. *)
Theorem generateChatResponse_capabilities
    (prompt : string) (file0 : option InlineData) (useThinking useFast : bool) :
  let r := Ai.generateChatResponse prompt file0 useThinking useFast in
  (Ai.googleSearch (Ai.config r) = true
   <-> file0 = None /\ useThinking = false /\ useFast = false)
  /\ (Ai.thinkingLevelHigh (Ai.config r) = true
      <-> file0 = None /\ useThinking = true)
  /\ (Ai.model r = "gemini-2.5-flash-lite-latest"
      <-> file0 = None /\ useThinking = false /\ useFast = true)
  /\ (file0 <> None -> Ai.model r = "gemini-3.1-pro-preview")
  /\ Ai.googleSearch (Ai.config r) && Ai.thinkingLevelHigh (Ai.config r) = false.
Proof.
  destruct file0 as [d|], useThinking, useFast; simpl;
    repeat split; try tauto; try congruence; try discriminate;
    intros; repeat match goal with H : _ /\ _ |- _ => destruct H end;
    try congruence; try discriminate.
Qed.

(** What a request of [generateChatResponse] carries: the prompt,
    unchanged, as its last part and only text, and before it the file
    exactly when one was given. *)
Lemma generateChatResponse_parts
    (prompt : string) (file0 : option InlineData) (useThinking useFast : bool) :
  let r := Ai.generateChatResponse prompt file0 useThinking useFast in
  Ai.parts r
  = (match file0 with
     | Some d => [Ai.inlineData d]
     | None => []
     end ++ [Ai.text prompt])%list
  /\ transmitted (geminiGenerate r) = file0
  /\ promptOf (geminiGenerate r) = prompt.
Proof.
  destruct file0 as [d|], useThinking, useFast; repeat split.
Qed.

(** ** The session gate *)

Lemma setError_identity (e : string) (p : Gate.Page) :
  Gate.user (Gate.setError e p) = Gate.user p
  /\ Gate.currentUser (Gate.setError e p) = Gate.currentUser p
  /\ Gate.signingIn (Gate.setError e p) = Gate.signingIn p
  /\ Gate.puterLoaded (Gate.setError e p) = Gate.puterLoaded p.
Proof. unfold Gate.setError. now destruct (Gate.screen p). Qed.

Lemma setError_error (e : string) (p : Gate.Page) :
  Gate.screen p = Gate.authScreen -> Gate.error (Gate.setError e p) = e.
Proof. intros H. unfold Gate.setError. now rewrite H. Qed.

Lemma setUser_identity (u : option string) (p : Gate.Page) :
  Gate.user (Gate.setUser u p) = u
  /\ Gate.currentUser (Gate.setUser u p) = Gate.currentUser p.
Proof.
  unfold Gate.setUser.
  now destruct (Gate.screen p), (Gate.screenOf u).
Qed.

Lemma setError_shown (e : string) (p : Gate.Page) :
  shownIsStored p -> shownIsStored (Gate.setError e p).
Proof.
  unfold shownIsStored.
  destruct (setError_identity e p) as (-> & -> & _). trivial.
Qed.

Lemma load_shown (p : Gate.Page) : shownIsStored (Gate.load p).
Proof.
  unfold Gate.load. simpl.
  destruct (Gate.currentUser p) as [u|] eqn:C; [|exact I].
  destruct (Js.truthy u) eqn:T; [|exact I].
  unfold shownIsStored.
  match goal with
  | |- context [Gate.setUser ?v ?q] =>
      destruct (setUser_identity v q) as (-> & ->)
  end.
  now split.
Qed.

Lemma afterSignIn_shown (shown : bool) (o : Gate.SignIn) (p : Gate.Page) :
  shownIsStored p -> shownIsStored (Gate.afterSignIn shown o p).
Proof.
  intros H.
  assert (forall e, shownIsStored (if shown then Gate.setError e p else p)) as C
    by (intros e; destruct shown; [now apply setError_shown | exact H]).
  unfold Gate.afterSignIn.
  destruct o as [[[u|]|]|err]; try apply C.
  - destruct (Js.truthy u) eqn:T; [|apply C].
    unfold shownIsStored.
    destruct (setUser_identity (Some u) (Gate.setItem u p)) as (-> & ->).
    now split.
  - destruct (Gate.caught err); [apply C | exact H].
Qed.

Lemma gate_step_shown (p : Gate.Page) (e : Gate.Event) :
  shownIsStored p -> shownIsStored (Gate.step p e).
Proof.
  intros H. destruct e; simpl.
  - apply load_shown.
  - destruct (Gate.screen p); [exact H|].
    unfold Gate.handlePuterSignIn.
    destruct (Gate.puterLoaded (Gate.setError "" p)).
    + pose proof (setError_shown "" p H) as H'. exact H'.
    + now apply setError_shown, setError_shown.
  - unfold Gate.signInSettles.
    destruct (Gate.signingIn p) as [|n]; [exact H|].
    now apply afterSignIn_shown.
  - unfold Gate.orphanSettles.
    destruct (Gate.orphans p) as [|n]; [exact H|].
    now apply afterSignIn_shown.
  - destruct (Gate.screen p); [|exact H].
    unfold Gate.handleLogout, shownIsStored.
    now destruct (setUser_identity None (Gate.removeItem p)) as (-> & _).
Qed.

Lemma gate_run_shown (es : list Gate.Event) :
  forall p, shownIsStored p -> shownIsStored (Gate.run p es).
Proof.
  induction es as [|e es IH]; intros p H; [exact H|].
  apply (IH (Gate.step p e)). now apply gate_step_shown.
Qed.

(** X15. Whatever the storage held when the page was opened and
    whatever was clicked or settled since, the chat screen is only
    shown for the identity that is stored under
    [global_ai_current_user]: the sign-in screen is shown otherwise. *)
Theorem chat_shown_for_stored_identity
    (stored : option string) (puter0 : bool) (es : list Gate.Event) (u : string) :
  Gate.screen (Gate.run (Gate.opened stored puter0) es) = Gate.chatFor u ->
  Gate.currentUser (Gate.run (Gate.opened stored puter0) es) = Some u
  /\ u <> "".
Proof.
  pose proof (gate_run_shown es _ (load_shown
    {| Gate.user := None; Gate.error := ""; Gate.currentUser := stored;
       Gate.puterLoaded := puter0; Gate.signingIn := 0;
       Gate.orphans := 0 |})) as H.
  fold (Gate.opened stored puter0) in H.
  unfold shownIsStored, Gate.screen, Gate.screenOf in *.
  destruct (Gate.user (Gate.run (Gate.opened stored puter0) es)) as [v|];
    [|discriminate].
  destruct H as [T C]. rewrite T. intros E. injection E as ->.
  split; [exact C|]. intros ->. discriminate.
Qed.

Lemma chat_shown_for_stored_identity_witness :
  let es := [Gate.signInClicked;
             Gate.signInSettled (Gate.resolves (Some (Some "ann")));
             Gate.reloaded] in
  Gate.screen (Gate.run (Gate.opened None true) es) = Gate.chatFor "ann"
  /\ Gate.currentUser (Gate.run (Gate.opened None true) es) = Some "ann".
Proof.
  intros es. split; [reflexivity|].
  exact (proj1 (chat_shown_for_stored_identity None true es "ann" eq_refl)).
Defined.

(** X16. A sign-in that comes back with a usable [username] stores it
    and shows the chat for it, and so does every later load of the
    page; after Logout the stored identity is gone and a load of the
    page shows the sign-in screen. *)
Theorem sign_in_survives_reload (p : Gate.Page) (o : Gate.SignIn) (u : string) :
  Gate.signingIn p <> 0 ->
  Gate.username o = Some u ->
  let p' := Gate.step p (Gate.signInSettled o) in
  (Gate.screen p' = Gate.chatFor u /\ Gate.currentUser p' = Some u)
  /\ Gate.screen (Gate.step p' Gate.reloaded) = Gate.chatFor u
  /\ (let q := Gate.step p' Gate.logoutClicked in
      Gate.currentUser q = None
      /\ Gate.screen q = Gate.authScreen
      /\ Gate.screen (Gate.step q Gate.reloaded) = Gate.authScreen).
Proof.
  intros Hn Ho. simpl. unfold Gate.signInSettles.
  destruct (Gate.signingIn p) as [|n]; [congruence|].
  destruct o as [[[v|]|]|m]; simpl in Ho; try discriminate.
  destruct (Js.truthy v) eqn:T; [|discriminate]. injection Ho as ->.
  unfold Gate.afterSignIn. rewrite T.
  match goal with
  | |- context [Gate.setUser (Some u) ?q] =>
      set (p' := Gate.setUser (Some u) q);
      destruct (setUser_identity (Some u) q) as (U & C)
  end.
  fold p' in U, C. simpl in C.
  assert (Gate.screen p' = Gate.chatFor u) as S
    by (unfold Gate.screen, Gate.screenOf; now rewrite U, T).
  rewrite S. split; [now split|]. split.
  - unfold Gate.load. simpl. rewrite C, T.
    unfold Gate.screen.
    match goal with
    | |- context [Gate.setUser (Some u) ?q] =>
        destruct (setUser_identity (Some u) q) as (-> & _)
    end.
    unfold Gate.screenOf. now rewrite T.
  - unfold Gate.handleLogout.
    destruct (setUser_identity None (Gate.removeItem p')) as (U' & C').
    simpl in C'. rewrite C'. split; [reflexivity|].
    unfold Gate.screen at 1. rewrite U'. split; [reflexivity|].
    unfold Gate.load. simpl. now rewrite C'.
Qed.

Lemma sign_in_survives_reload_witness :
  let p := Gate.step (Gate.opened None true) Gate.signInClicked in
  let o := Gate.resolves (Some (Some "ann")) in
  (Gate.signingIn p <> 0 /\ Gate.username o = Some "ann")
  /\ Gate.screen (Gate.step (Gate.step p (Gate.signInSettled o)) Gate.reloaded)
     = Gate.chatFor "ann".
Proof.
  intros p o.
  assert (Gate.signingIn p <> 0) as H by discriminate.
  split; [split; [exact H | reflexivity]|].
  exact (proj1 (proj2 (sign_in_survives_reload p o "ann" H eq_refl))).
Defined.

Lemma caught_not_empty (err : option (option string)) (message : string) :
  Gate.caught err = Some message -> message <> "".
Proof.
  destruct err as [[m|]|]; simpl; intros E; try discriminate;
    injection E as <-; [|discriminate].
  unfold Js.truthy. destruct (String.eqb_spec m ""); simpl;
    [discriminate | assumption].
Qed.

Lemma afterSignIn_failed_identity
    (shown : bool) (o : Gate.SignIn) (p : Gate.Page) :
  Gate.username o = None ->
  Gate.user (Gate.afterSignIn shown o p) = Gate.user p
  /\ Gate.currentUser (Gate.afterSignIn shown o p) = Gate.currentUser p.
Proof.
  intros Ho.
  assert (forall e,
            Gate.user (if shown then Gate.setError e p else p) = Gate.user p
            /\ Gate.currentUser (if shown then Gate.setError e p else p)
               = Gate.currentUser p) as C.
  { intros e. destruct shown; [|now split].
    now destruct (setError_identity e p) as (-> & -> & _). }
  unfold Gate.afterSignIn.
  destruct o as [[[v|]|]|err]; simpl in Ho; try apply C.
  - destruct (Js.truthy v); [discriminate | apply C].
  - destruct (Gate.caught err); [apply C | now split].
Qed.

Lemma afterSignIn_failed_gone (o : Gate.SignIn) (p : Gate.Page) :
  Gate.username o = None -> Gate.afterSignIn false o p = p.
Proof.
  intros Ho. unfold Gate.afterSignIn.
  destruct o as [[[v|]|]|err]; simpl in Ho; try reflexivity.
  - now destruct (Js.truthy v).
  - now destruct (Gate.caught err).
Qed.

Lemma afterSignIn_failed_shown (o : Gate.SignIn) (p : Gate.Page) :
  Gate.username o = None ->
  Gate.screen p = Gate.authScreen ->
  if match o with Gate.rejects None => true | _ => false end
  then Gate.error (Gate.afterSignIn true o p) = Gate.error p
  else Gate.error (Gate.afterSignIn true o p) <> "".
Proof.
  intros Ho Hs. unfold Gate.afterSignIn.
  destruct o as [[[v|]|]|[err|]]; simpl in Ho.
  - destruct (Js.truthy v); [discriminate|].
    rewrite (setError_error _ _ Hs). discriminate.
  - rewrite (setError_error _ _ Hs). discriminate.
  - rewrite (setError_error _ _ Hs). discriminate.
  - destruct (Gate.caught (Some err)) as [message|] eqn:E;
      [|now destruct err].
    rewrite (setError_error _ _ Hs). now apply (caught_not_empty (Some err)).
  - reflexivity.
Qed.

(** X17. A sign-in that does not come back with a usable [username] (no
    result, no [username], an empty one, or a rejection) changes
    neither the user shown nor the stored identity.  On the sign-in
    screen it was started from it leaves a message that is never
    empty, except that a rejection with [undefined] or [null] leaves
    the message as it was: reading its [message] throws.  When the
    sign-in screen it was started from is gone, it sets no message at
    all.  A click on Sign In without the client sets
    [Puter.js is not loaded.]. *)
Theorem failed_sign_in_keeps_identity (p : Gate.Page) (o : Gate.SignIn) :
  Gate.username o = None ->
  (let p' := Gate.step p (Gate.signInSettled o) in
   Gate.user p' = Gate.user p
   /\ Gate.currentUser p' = Gate.currentUser p
   /\ (Gate.signingIn p <> 0 -> Gate.screen p = Gate.authScreen ->
       if match o with Gate.rejects None => true | _ => false end
       then Gate.error p' = Gate.error p
       else Gate.error p' <> ""))
  /\ (let p' := Gate.step p (Gate.orphanSettled o) in
      Gate.user p' = Gate.user p
      /\ Gate.currentUser p' = Gate.currentUser p
      /\ Gate.error p' = Gate.error p)
  /\ (Gate.puterLoaded p = false -> Gate.screen p = Gate.authScreen ->
      let p' := Gate.step p Gate.signInClicked in
      Gate.user p' = Gate.user p
      /\ Gate.currentUser p' = Gate.currentUser p
      /\ Gate.error p' = "Puter.js is not loaded.").
Proof.
  intros Ho. split; [|split].
  - simpl. unfold Gate.signInSettles.
    destruct (Gate.signingIn p) as [|n] eqn:N;
      [repeat split; congruence|].
    match goal with
    | |- context [Gate.afterSignIn true o ?q] =>
        destruct (afterSignIn_failed_identity true o q Ho) as (U & C);
        pose proof (afterSignIn_failed_shown o q Ho) as E
    end.
    split; [exact U|]. split; [exact C|]. intros _ Hs. exact (E Hs).
  - simpl. unfold Gate.orphanSettles.
    destruct (Gate.orphans p) as [|n]; [repeat split|].
    rewrite (afterSignIn_failed_gone o _ Ho). repeat split.
  - intros Hp Hs. simpl. rewrite Hs. unfold Gate.handlePuterSignIn.
    destruct (setError_identity "" p) as (U & C & _ & P).
    rewrite P, Hp.
    destruct (setError_identity "Puter.js is not loaded." (Gate.setError "" p))
      as (U' & C' & _).
    rewrite U', C', U, C. repeat split.
    apply setError_error. unfold Gate.screen in *. now rewrite U.
Qed.

Lemma failed_sign_in_keeps_identity_witness :
  let p := Gate.step (Gate.opened None true) Gate.signInClicked in
  let o := Gate.rejects (Some (Some "")) in
  let q := Gate.run (Gate.opened None true)
             [Gate.signInClicked; Gate.signInClicked;
              Gate.signInSettled (Gate.resolves (Some (Some "ann")));
              Gate.logoutClicked] in
  Gate.username o = None
  /\ (Gate.user (Gate.step p (Gate.signInSettled o)) = None
      /\ Gate.error (Gate.step p (Gate.signInSettled o)) = "Failed to sign in.")
  /\ (Gate.orphans q = 1
      /\ Gate.error (Gate.step q (Gate.orphanSettled o)) = "").
Proof.
  intros p o q. split; [reflexivity|].
  destruct (failed_sign_in_keeps_identity p o eq_refl) as ((U & _) & _).
  destruct (failed_sign_in_keeps_identity q o eq_refl) as (_ & (_ & _ & E) & _).
  split; [split; [exact U | reflexivity]|].
  split; [reflexivity | exact E].
Defined.

(** ** Voice input *)

Lemma pageRun_app (p : Voice.Page) (es es' : list Voice.Event) :
  pageRun p (es ++ es') = pageRun (pageRun p es) es'.
Proof. unfold pageRun. apply fold_left_app. Qed.

(** The pieces of audio that arrive are buffered in order, the empty
    ones left out; nothing else changes. *)
Lemma chunks_buffered (sizes : list N) :
  forall p,
    pageRun p (map Voice.dataAvailable sizes)
    = {| Voice.chat := Voice.chat p;
         Voice.voice :=
           {| Voice.isRecording := Voice.isRecording (Voice.voice p);
              Voice.mediaRecorderRef := Voice.mediaRecorderRef (Voice.voice p);
              Voice.audioChunksRef :=
                (Voice.audioChunksRef (Voice.voice p)
                 ++ filter (N.ltb 0) sizes)%list;
              Voice.recorders := Voice.recorders (Voice.voice p);
              Voice.stopped := Voice.stopped (Voice.voice p);
              Voice.released := Voice.released (Voice.voice p);
              Voice.micRequests := Voice.micRequests (Voice.voice p);
              Voice.transcribing := Voice.transcribing (Voice.voice p);
              Voice.alerts := Voice.alerts (Voice.voice p) |} |}.
Proof.
  induction sizes as [|size sizes IH]; intros [c v].
  - destruct v. simpl. now rewrite app_nil_r.
  - simpl map. unfold pageRun in *. simpl fold_left. rewrite IH.
    unfold Voice.ondataavailable. simpl.
    destruct (0 <? size)%N; simpl; [now rewrite <- app_assoc | reflexivity].
Qed.

(** X18. One recording, from the click on the microphone to the stop
    of the recorder: the audio handed to [speech2txt] is made of the
    pieces that arrived, in their order, without the empty ones; the
    recorder was stopped once and its tracks released, recording is off
    and [isLoading] is on until the transcription settles. *)
Theorem recording_submits_nonempty_chunks (email : string) (sizes : list N) :
  let p := pageRun (pageMount email true)
             ([Voice.micClicked; Voice.micGranted]
              ++ map Voice.dataAvailable sizes
              ++ [Voice.micClicked; Voice.recorderStopped 0]) in
  Voice.transcribing (Voice.voice p) = [filter (N.ltb 0) sizes]
  /\ Voice.isRecording (Voice.voice p) = false
  /\ (Voice.stopped (Voice.voice p) = [0] /\ Voice.released (Voice.voice p) = [0])
  /\ isLoading (Voice.chat p) = true
  /\ input (Voice.chat p) = "".
Proof.
  cbv zeta. rewrite !pageRun_app, chunks_buffered. repeat split.
Qed.

(** X19. When a transcription settles, the draft as it is then (typed
    meanwhile or not) gets the recognised text added: the text alone
    when the draft is empty, the draft, one space and the text
    otherwise.  No text, an empty text or a failure leave the draft as
    it is; a failure raises the alert.  In every case [isLoading] is
    turned off and the transcript is not touched. *)
Theorem dictation_joins_draft
    (p : Voice.Page) (i : nat) (audio : list N) (h : Voice.Heard) :
  nth_error (Voice.transcribing (Voice.voice p)) i = Some audio ->
  let p' := pageStep p (Voice.transcriptionSettled i h) in
  let draft := input (Voice.chat p) in
  input (Voice.chat p')
  = match h with
    | Voice.heard t =>
        match Voice.spoken t with
        | Some text => if draft =? "" then text else draft ++ " " ++ text
        | None => draft
        end
    | Voice.failed => draft
    end
  /\ Voice.alerts (Voice.voice p')
     = (Voice.alerts (Voice.voice p)
        ++ match h with
           | Voice.failed => ["Failed to transcribe audio."]
           | Voice.heard _ => []
           end)%list
  /\ isLoading (Voice.chat p') = false
  /\ messages (Voice.chat p') = messages (Voice.chat p)
  /\ tasks (Voice.chat p') = tasks (Voice.chat p).
Proof.
  intros H. simpl. unfold Voice.transcribed. rewrite H.
  destruct h as [t|]; simpl.
  - rewrite app_nil_r. destruct (Voice.spoken t) as [text|]; simpl.
    + unfold Js.truthy.
      destruct (input (Voice.chat p) =? "") eqn:E; simpl; [|repeat split].
      apply String.eqb_eq in E. rewrite E. repeat split.
    + repeat split.
  - repeat split.
Qed.

Lemma dictation_joins_draft_witness :
  let p := pageRun (pageMount "ann" true)
             [Voice.micClicked; Voice.micGranted; Voice.dataAvailable 512;
              Voice.micClicked; Voice.recorderStopped 0;
              Voice.onChat (typed "Dear Bob,")] in
  let h := Voice.heard (Voice.object (Some "see you at noon") "[object Object]") in
  nth_error (Voice.transcribing (Voice.voice p)) 0 = Some [512%N]
  /\ input (Voice.chat (pageStep p (Voice.transcriptionSettled 0 h)))
     = "Dear Bob, see you at noon".
Proof.
  intros p h. split; [reflexivity|].
  exact (proj1 (dictation_joins_draft p 0 [512%N] h eq_refl)).
Defined.

Lemma transcribed_chat (p : Voice.Page) (i : nat) (h : Voice.Heard) :
  let c := Voice.chat p in
  let c' := Voice.chat (Voice.transcribed i h p) in
  (messages c' = messages c /\ chats c' = chats c /\ tasks c' = tasks c)
  /\ (selectedFile c' = selectedFile c /\ mode c' = mode c)
  /\ puter c' = puter c.
Proof.
  unfold Voice.transcribed.
  destruct (nth_error (Voice.transcribing (Voice.voice p)) i);
    [|repeat split].
  destruct h as [t|]; [destruct (Voice.spoken t)|]; repeat split.
Qed.

Lemma transcribed_isLoading
    (p : Voice.Page) (i : nat) (audio : list N) (h : Voice.Heard) :
  nth_error (Voice.transcribing (Voice.voice p)) i = Some audio ->
  isLoading (Voice.chat (Voice.transcribed i h p)) = false.
Proof.
  intros H. unfold Voice.transcribed. rewrite H.
  destruct h as [t|]; [destruct (Voice.spoken t)|]; reflexivity.
Qed.

(** X20. The end of a transcription turns [isLoading] off even while a
    submission is in flight.  With something to send in the draft, the
    send button then submits again: the transcript gets one more
    pending placeholder on top of those it has, and one more strategy
    call is issued. *)
Theorem dictation_reenables_send
    (p : Voice.Page) (i : nat) (audio : list N) (h : Voice.Heard) (t1 t2 : N) :
  nth_error (Voice.transcribing (Voice.voice p)) i = Some audio ->
  puter (Voice.chat p) = true ->
  selectedFile (Voice.chat p) = None ->
  let p' := pageStep p (Voice.transcriptionSettled i h) in
  blank (input (Voice.chat p')) = false ->
  let p'' := pageStep p' (Voice.onChat (sendClicked t1 t2)) in
  isLoading (Voice.chat p') = false
  /\ pendingCount (messages (Voice.chat p''))
     = S (pendingCount (messages (Voice.chat p)))
  /\ length (chats (Voice.chat p'')) = S (length (chats (Voice.chat p))).
Proof.
  intros H Hp Hf p' Hb p''.
  pose proof (transcribed_isLoading p i audio h H) as L.
  change (Voice.transcribed i h p) with p' in L.
  destruct (transcribed_chat p i h) as ((M & C & _) & (F & _) & P).
  change (Voice.transcribed i h p) with p' in M, C, F, P.
  rewrite Hf in F. rewrite Hp in P.
  assert (nothingToSend (Voice.chat p') = false) as N.
  { destruct (nothingToSend (Voice.chat p')) eqn:N; [|reflexivity].
    apply nothingToSend_iff in N as [_ B]. congruence. }
  assert (Voice.chat p''
          = afterIngestion (length (tasks (Voice.chat p')))
              (messages (Voice.chat p'))
              (newUserMessage t1 (input (Voice.chat p'))) None ""
              (mode (Voice.chat p')) t2 (Voice.chat p')) as E.
  { unfold p''. simpl. unfold sendDisabled. rewrite N, L. simpl.
    unfold handleSubmit. now rewrite N, F. }
  destruct (afterIngestion_loaded (length (tasks (Voice.chat p')))
              (messages (Voice.chat p'))
              (newUserMessage t1 (input (Voice.chat p'))) None ""
              (mode (Voice.chat p')) t2 (Voice.chat p') P)
    as (M' & _ & C' & _).
  rewrite <- E in M', C'.
  split; [exact L|]. rewrite M', C', M, C.
  rewrite !pendingCount_app, length_app. simpl. unfold pendingCount at 2 3.
  simpl. split; lia.
Qed.

Lemma dictation_reenables_send_witness :
  let p := pageRun (pageMount "ann" true)
             [Voice.onChat (typed "a"); Voice.onChat (sendClicked 1000 1000);
              Voice.micClicked; Voice.micGranted; Voice.dataAvailable 512;
              Voice.micClicked; Voice.recorderStopped 0] in
  let h := Voice.heard (Voice.plain "b") in
  let p' := pageStep p (Voice.transcriptionSettled 0 h) in
  let p'' := pageStep p' (Voice.onChat (sendClicked 1005 1005)) in
  (nth_error (Voice.transcribing (Voice.voice p)) 0 = Some [512%N]
   /\ puter (Voice.chat p) = true /\ selectedFile (Voice.chat p) = None
   /\ blank (input (Voice.chat p')) = false)
  /\ pendingCount (messages (Voice.chat p)) = 1
  /\ pendingCount (messages (Voice.chat p'')) = 2.
Proof.
  intros p h p' p''.
  destruct (dictation_reenables_send p 0 [512%N] h 1005 1005
              eq_refl eq_refl eq_refl eq_refl) as (_ & P & _).
  split; [repeat split|]. split; [reflexivity | exact P].
Defined.

(** ** Deleting again, deleting what is not there *)

Lemma filter_others_b (id0 : string) (l : list Message) :
  forallb (fun m => negb (id m =? id0)) l = true ->
  filter (fun m => negb (id m =? id0)) l = l.
Proof.
  induction l as [|m l IH]; simpl; intros H; [reflexivity|].
  apply andb_true_iff in H as [Hm Hl]. now rewrite Hm, (IH Hl).
Qed.

Lemma forallb_filter_same (f : Message -> bool) (l : list Message) :
  forallb f (filter f l) = true.
Proof.
  induction l as [|m l IH]; simpl; [reflexivity|].
  destruct (f m) eqn:E; simpl; [now rewrite E|exact IH].
Qed.

(** X21. [handleDeleteMessage] removes every message of the given id,
    so that none is left, and saves what remains each time it is
    called: for an id no message has, the transcript stays as it is and
    is saved all the same; a second deletion of the same id changes
    nothing but saves once more. *)
Theorem delete_leaves_no_such_id (st : State) (id0 : string) :
  let st1 := step st (deleteClicked id0) in
  let st2 := step st1 (deleteClicked id0) in
  forallb (fun m => negb (id m =? id0)) (messages st1) = true
  /\ (forallb (fun m => negb (id m =? id0)) (messages st) = true ->
      messages st1 = messages st)
  /\ messages st2 = messages st1
  /\ saved st2 = (saved st ++ [messages st1; messages st1])%list.
Proof.
  cbv zeta. simpl step.
  destruct (delete_filters id0 st) as (M1 & S1 & _).
  destruct (delete_filters id0 (handleDeleteMessage id0 st)) as (M2 & S2 & _).
  cbv zeta in M1, S1, M2, S2.
  assert (forallb (fun m => negb (id m =? id0))
            (messages (handleDeleteMessage id0 st)) = true) as F
    by (rewrite M1; apply forallb_filter_same).
  split; [exact F|]. split.
  - intros H. rewrite M1. now apply filter_others_b.
  - rewrite (filter_others_b _ _ F) in M2, S2.
    split; [exact M2|]. rewrite S2, S1, <- M1. now rewrite <- app_assoc.
Qed.

Lemma delete_leaves_no_such_id_witness :
  let st := set_messages [newUserMessage 1000 "Hello"; answered "1001" "Hi"]
              (mount "ann" true) in
  forallb (fun m => negb (id m =? "4711")) (messages st) = true
  /\ messages (step st (deleteClicked "4711")) = messages st.
Proof.
  intros st. split; [reflexivity|].
  exact (proj1 (proj2 (delete_leaves_no_such_id st "4711")) eq_refl).
Defined.
